(** * The productivity page: calculator and Kanban board

    A shallow embedding of [calculator.js] (which also carries the tab
    script and the Kanban script) and the properties of its task board.

    The page keeps no model of its tasks besides the DOM: a task is a
    [div.task] inside one of the three task containers, and the board is
    read back out of the document whenever it is saved.  The embedding
    therefore models the part of the document the script reads and
    writes, the [kanbanTasks] slot of [localStorage], and a trace of the
    effects a caller can observe (snapshots written, confetti, console
    warnings).

    Conventions taken from the script, whose HTML page is a separate file:
    - the page has the three columns [todo], [inprogress], [done] (class
      [kanban-column], inside [#kanbanContent], in this document order),
      each holding its task container [todoTasks], [inprogressTasks],
      [doneTasks], and the input [taskInput]; the guards of the script
      against a missing element therefore always pass;
    - the elements of the page that carry an id are the ones the script
      looks up ([page_ids]). What a drop or a delete does once
      [document.getElementById] has handed it one of these instead of a
      task depends on the page and is not followed here: the model only
      records that it happened. The properties that say which task a
      drop or a delete finds, where it puts it and what it fires carry
      the hypothesis that the id is not one of these. The properties
      stated for every id are those that do not depend on it: handed an
      element of the page, a drop moves that element and a delete
      removes it, so that no task is created, no id or text changes and
      a delete fires no confetti, and each ends with a save unless an
      exception ends it before the slot was written;
    - [localStorage] itself does not fail (no quota error on [setItem]). *)

From Stdlib Require Import List Arith NArith ZArith Bool Lia String Ascii Floats Permutation.
From Stdlib Require Decimal DecimalN.
Import ListNotations.

Set Warnings "-inexact-float,-register-all".

(** ** JavaScript values used by the page *)

Module JS.

(** A JavaScript string is a sequence of UTF-16 code units. *)
Definition jsstring := list N.

(** A string literal of the script (its characters are all ASCII). *)
Definition lit (s : string) : jsstring :=
  map N_of_ascii (list_ascii_of_string s).

(** [a === b] on strings. *)
Fixpoint eqb (a b : jsstring) : bool :=
  match a, b with
  | [], [] => true
  | x :: a', y :: b' => N.eqb x y && eqb a' b'
  | _, _ => false
  end.

Definition eq_dec : forall a b : jsstring, {a = b} + {a <> b} :=
  list_eq_dec N.eq_dec.

(** The code units [String.prototype.trim] strips: WhiteSpace and
    LineTerminator of ECMAScript (TAB, LF, VT, FF, CR, SP, NBSP, U+1680,
    U+2000..U+200A, U+2028, U+2029, U+202F, U+205F, U+3000, U+FEFF). *)
Definition isWhiteSpace (c : N) : bool :=
  existsb (N.eqb c)
    [9; 10; 11; 12; 13; 32; 160; 5760; 8232; 8233; 8239; 8287; 12288; 65279]%N
  || (N.leb 8192 c && N.leb c 8202).

Fixpoint trimStart (s : jsstring) : jsstring :=
  match s with
  | [] => []
  | c :: s' => if isWhiteSpace c then trimStart s' else s
  end.

Definition trimEnd (s : jsstring) : jsstring := rev (trimStart (rev s)).

(** [s.trim()] *)
Definition trim (s : jsstring) : jsstring := trimEnd (trimStart s).

(** The digits of a decimal numeral, as code units. *)
Fixpoint uint_chars (u : Decimal.uint) : jsstring :=
  match u with
  | Decimal.Nil => []
  | Decimal.D0 u' => 48%N :: uint_chars u'
  | Decimal.D1 u' => 49%N :: uint_chars u'
  | Decimal.D2 u' => 50%N :: uint_chars u'
  | Decimal.D3 u' => 51%N :: uint_chars u'
  | Decimal.D4 u' => 52%N :: uint_chars u'
  | Decimal.D5 u' => 53%N :: uint_chars u'
  | Decimal.D6 u' => 54%N :: uint_chars u'
  | Decimal.D7 u' => 55%N :: uint_chars u'
  | Decimal.D8 u' => 56%N :: uint_chars u'
  | Decimal.D9 u' => 57%N :: uint_chars u'
  end.

(** ['' + n] for a non-negative integer [n] (here: a millisecond count,
    far below 1e21, which JavaScript prints in plain decimal). *)
Definition string_of_N (n : N) : jsstring := uint_chars (N.to_uint n).

(** What [JSON.parse] can return. The page never looks at the value of a
    number, which is kept as the numeral of the stored text. An object
    lists its properties in the order of the text. *)
Inductive json :=
| JNull
| JBool (b : bool)
| JNumber (numeral : jsstring)
| JString (s : jsstring)
| JArray (items : list json)
| JObject (props : list (jsstring * json)).

(** [v === null] *)
Definition is_null (v : json) : bool :=
  match v with JNull => true | _ => false end.

(** The last property of that name wins, as in [JSON.parse]. *)
Fixpoint lookup (k : jsstring) (props : list (jsstring * json)) : option json :=
  match props with
  | [] => None
  | (k', v) :: rest =>
      match lookup k rest with
      | Some v' => Some v'
      | None => if eqb k k' then Some v else None
      end
  end.

(** [v.k] for the keys the page reads ([id], [text], [status]) on a value
    other than [null]; [None] is [undefined]. None of these keys is
    inherited from a prototype, so only an object can answer. *)
Definition prop (v : json) (k : jsstring) : option json :=
  match v with
  | JObject props => lookup k props
  | _ => None
  end.

(** [typeof x === 'string'], returning the string. *)
Definition as_string (x : option json) : option jsstring :=
  match x with
  | Some (JString s) => Some s
  | _ => None
  end.

(** A string held by [localStorage], as far as the page can tell strings
    apart: it tests the string for truthiness and hands it to
    [JSON.parse]. [JSON.stringify v] is a string of the third kind. *)
Inductive stored :=
| EmptyString               (* the string of length 0: falsy, and not JSON *)
| Unparseable               (* a non-empty string that JSON.parse rejects *)
| Parses (v : json).        (* a non-empty string that JSON.parse turns into v *)

Definition truthy (s : stored) : bool :=
  match s with EmptyString => false | _ => true end.

(** [JSON.parse s]; [None] is the SyntaxError it throws. *)
Definition JSON_parse (s : stored) : option json :=
  match s with Parses v => Some v | _ => None end.

Definition JSON_stringify (v : json) : stored := Parses v.

End JS.

(** ** The calculator *)

Module Calculator.

Open Scope float_scope.

(** [parseFloat(field.value) || 0], given what [parseFloat] returned
    ([NaN] for an empty or non-numeric field): [NaN], [0] and [-0] are
    falsy. *)
Definition or_zero (parsed : float) : float :=
  if (PrimFloat.is_nan parsed || PrimFloat.is_zero parsed)%bool then 0 else parsed.

(** What ends up in [customEquationResultSpan.textContent]. *)
Inductive display :=
| Shown (finalResult : float)   (* finalResult.toLocaleString(.., 2 to 4 fraction digits) *)
| ErrorInvalidResult.           (* "Error (Invalid result)" *)

(** [isNaN(x) || !isFinite(x)] *)
Definition invalid (x : float) : bool :=
  (PrimFloat.is_nan x || negb (PrimFloat.is_finite x))%bool.

(** The four arguments are the results of [parseFloat] on the fields
    varD, varSP, varCp and varB. *)
Definition calculateAndUpdateResults (varD varSP varCp varB : float) : display :=
  let D := or_zero varD in
  let SP := or_zero varSP in
  let Cp := or_zero varCp in
  let B := or_zero varB in
  let term1 := SP - Cp + B + 74 in
  let term2 := D * term1 in
  let term3 := term2 - 7400 in
  let term4 := term3 / 1.20 in
  let finalResult := term4 / 100 in
  if invalid finalResult then ErrorInvalidResult else Shown finalResult.

(** The equation with a divisor left open: 1.20 in the body of the
    function, 1.18 in the comment above it. *)
Definition equation (divisor D SP Cp B : float) : float :=
  ((D * (SP - Cp + B + 74) - 7400) / divisor) / 100.

(** Two binary64 values that are the same number: equal, or two zeros
    that differ in sign at most. *)
Definition same_number (a b : spec_float) : Prop :=
  a = b \/ exists s s', a = S754_zero s /\ b = S754_zero s'.

End Calculator.

(** ** The Kanban board *)

Module Kanban.

Import JS.

(** Modelled from the spec: the HTML page is not among the sources. The
    spec fixes three stages, [todo], [inprogress] and [done]; the script
    looks up a column element under each of these ids and takes every
    [.kanban-column] of [#kanbanContent] for one of them, so the columns
    of the page are these three. [column_id] is the [id] of the column
    element. *)
Inductive column := todo | inprogress | done.

Definition column_eqb (a b : column) : bool :=
  match a, b with
  | todo, todo | inprogress, inprogress | done, done => true
  | _, _ => false
  end.

Definition column_id (c : column) : jsstring :=
  match c with
  | todo => lit "todo"
  | inprogress => lit "inprogress"
  | done => lit "done"
  end.

Definition columns : list column := [todo; inprogress; done].

(** [taskContainers[key] instanceof HTMLElement], returning the column of
    the container: the object has the three keys [todo], [inprogress] and
    [done], and nothing it inherits is an element. *)
Definition taskContainers (key : jsstring) : option column :=
  if eqb key (lit "todo") then Some todo
  else if eqb key (lit "inprogress") then Some inprogress
  else if eqb key (lit "done") then Some done
  else None.

(** A task object [{id, text, status}] as [saveTasksToLocalStorage] and
    [addTask] build it. *)
Record task := {
  task_id : jsstring;
  task_text : jsstring;
  task_status : jsstring }.

Definition task_object (t : task) : json :=
  JObject [(lit "id", JString (task_id t));
           (lit "text", JString (task_text t));
           (lit "status", JString (task_status t))].

(** The [div.task] that [createTaskElement] builds, with what the script
    later reads from it or writes to it. *)
Record taskElement := {
  el_id : jsstring;                (* taskDiv.id, also the task.id its handlers close over *)
  textContent : jsstring;          (* of its span.task-text-color *)
  task_text_done : bool;           (* the span has class task-text-done *)
  lastColumn : option column }.    (* dataset.lastColumn; None is undefined *)

Inductive message :=
| InvalidTaskSkipped (t : json)        (* warn: Invalid task object found in local storage, skipping *)
| ContainerNotFound (status : jsstring)(* warn: Task container for status .. not found. Attempting to add to 'todo' *)
| NotAnArray                           (* error: .. is not a valid array. Clearing storage *)
| FailedToParse                        (* error: Failed to parse tasks from local storage .. Clearing stored tasks *)
| DeleteNotFound (taskId : jsstring)   (* warn: Attempted to delete task .. not found in the DOM *)
| DropNotFound (taskId : jsstring).    (* warn: Dropped task element .. not found in DOM *)

(** The effects of the script that are visible outside the board. The
    last one is not an effect but the mark that the model has lost the
    page: a drop or a delete was handed the id of an element of the page
    itself and went on with that element, and what this did to the page
    (elements moved or removed, a flash, confetti, a snapshot or an
    exception) is not followed. *)
Inductive event :=
| Saved (tasks : list task)      (* localStorage.setItem('kanbanTasks', JSON.stringify(tasks)) *)
| Confetti                       (* triggerConfetti() *)
| Flash (c : column)             (* flashColumnBackground(column element) *)
| EmptyInputHint                 (* placeholder "Task description cannot be empty!" and red border *)
| Console (m : message)
| PageElementHandled (taskId : jsstring).

(** The state the script works on: the children of the three task
    containers, the [kanbanTasks] slot of [localStorage] ([None]: the key
    is absent), and the events so far, oldest first. *)
Record world := {
  todoTasks : list taskElement;
  inprogressTasks : list taskElement;
  doneTasks : list taskElement;
  kanbanTasks : option stored;
  trace : list event }.

Definition children (w : world) (c : column) : list taskElement :=
  match c with
  | todo => todoTasks w
  | inprogress => inprogressTasks w
  | done => doneTasks w
  end.

Definition set_children (w : world) (c : column) (l : list taskElement) : world :=
  match c with
  | todo =>
      {| todoTasks := l; inprogressTasks := inprogressTasks w;
         doneTasks := doneTasks w; kanbanTasks := kanbanTasks w; trace := trace w |}
  | inprogress =>
      {| todoTasks := todoTasks w; inprogressTasks := l;
         doneTasks := doneTasks w; kanbanTasks := kanbanTasks w; trace := trace w |}
  | done =>
      {| todoTasks := todoTasks w; inprogressTasks := inprogressTasks w;
         doneTasks := l; kanbanTasks := kanbanTasks w; trace := trace w |}
  end.

(** [container.appendChild(el)] for an element that is not in the document *)
Definition appendChild (w : world) (c : column) (el : taskElement) : world :=
  set_children w c (children w c ++ [el]).

Definition set_storage (w : world) (s : option stored) : world :=
  {| todoTasks := todoTasks w; inprogressTasks := inprogressTasks w;
     doneTasks := doneTasks w; kanbanTasks := s; trace := trace w |}.

Definition emit (w : world) (e : event) : world :=
  {| todoTasks := todoTasks w; inprogressTasks := inprogressTasks w;
     doneTasks := doneTasks w; kanbanTasks := kanbanTasks w;
     trace := trace w ++ [e] |}.

(** [generateId], given what [Date.now()] returned and the string
    [Math.random().toString(36).substr(2, 9)]. *)
Definition generateId (now : N) (random : jsstring) : jsstring :=
  lit "task-" ++ string_of_N now ++ lit "-" ++ random.

(** [createTaskElement]: [None] is its [null]. The test [!task] matters
    for [null] only: every other falsy value has no string [id]. The
    element is not yet in the document. *)
Definition createTaskElement (t : json) : option taskElement :=
  if is_null t then None
  else
    match as_string (prop t (lit "id")), as_string (prop t (lit "text")),
          as_string (prop t (lit "status")) with
    | Some i, Some x, Some _ =>
        Some {| el_id := i; textContent := x;
                task_text_done := false; lastColumn := None |}
    | _, _, _ => None
    end.

Definition set_lastColumn (el : taskElement) (c : column) : taskElement :=
  {| el_id := el_id el; textContent := textContent el;
     task_text_done := task_text_done el; lastColumn := Some c |}.

Definition set_done (el : taskElement) (b : bool) : taskElement :=
  {| el_id := el_id el; textContent := textContent el;
     task_text_done := b; lastColumn := lastColumn el |}.

(** The tasks [saveTasksToLocalStorage] collects:
    [querySelectorAll('#kanbanContent .task')] in document order, each
    with the id of its closest column. *)
Definition collect_tasks (w : world) : list task :=
  flat_map
    (fun c => map (fun el => {| task_id := el_id el;
                                task_text := textContent el;
                                task_status := column_id c |})
                  (children w c))
    columns.

Definition saveTasksToLocalStorage (w : world) : world :=
  let tasks := collect_tasks w in
  emit (set_storage w (Some (JSON_stringify (JArray (map task_object tasks)))))
       (Saved tasks).

(** The first element of the list with that id, and the lists before and
    after it. *)
Fixpoint split_at_id (i : jsstring) (l : list taskElement)
  : option (list taskElement * taskElement * list taskElement) :=
  match l with
  | [] => None
  | el :: rest =>
      if eqb (el_id el) i then Some ([], el, rest)
      else match split_at_id i rest with
           | Some (before, x, after) => Some (el :: before, x, after)
           | None => None
           end
  end.

(** Where [document.getElementById] found a task. *)
Record found := {
  in_column : column;
  before : list taskElement;
  element : taskElement;
  after : list taskElement }.

Definition find_in (w : world) (c : column) (i : jsstring) : option found :=
  match split_at_id i (children w c) with
  | Some (b, el, a) =>
      Some {| in_column := c; before := b; element := el; after := a |}
  | None => None
  end.

(** The first task element in document order whose id is [i]. *)
Definition find_task (w : world) (i : jsstring) : option found :=
  match find_in w todo i with
  | Some f => Some f
  | None =>
      match find_in w inprogress i with
      | Some f => Some f
      | None => find_in w done i
      end
  end.

(** Modelled from the spec: the HTML page is not among the sources. The
    elements of the page that carry an id are taken to be the ones the
    script looks up by id: the four fields and the result span of the
    calculator, the two tab buttons and the two content divs, the task
    input and its button, the three task containers and the three
    columns. A page with further ids would add them here. *)
Definition page_ids : list jsstring :=
  map lit ["varD"; "varSP"; "varCp"; "varB"; "customEquationResult";
           "tabKanban"; "tabCalculator"; "kanbanContent"; "calculatorContent";
           "taskInput"; "addTaskBtn"; "todoTasks"; "inprogressTasks"; "doneTasks";
           "todo"; "inprogress"; "done"]%string.

Definition is_page_id (i : jsstring) : bool := existsb (eqb i) page_ids.

(** What [document.getElementById] answers, when it is not [null]. *)
Inductive node :=
| TaskNode (f : found)   (* a task element, and where it is *)
| PageNode.              (* the id is one of the page's own: see below *)

(** [document.getElementById(i)]: the first element in document order
    whose id is [i], searched in the whole page; an element whose [id]
    attribute is empty has no id, so the empty string finds nothing. For
    an id that is not one of the page's own, only a task element can
    carry it, and the answer is the first of these. For an id of
    [page_ids] the answer depends on the page, which is not among the
    sources: it is the element of the page or, if one comes first in the
    document, a task that was given the same id. The model does not tell
    the two apart and answers [PageNode]. *)
Definition getElementById (w : world) (i : jsstring) : option node :=
  match i with
  | [] => None
  | _ =>
      if is_page_id i then Some PageNode
      else match find_task w i with
           | Some f => Some (TaskNode f)
           | None => None
           end
  end.

(** [addTask], given [taskInput.value] and the two answers [generateId]
    gets from its environment. *)
Definition addTask (w : world) (value : jsstring) (now : N) (random : jsstring) : world :=
  let taskTextVal := trim value in
  if eqb taskTextVal [] then emit w EmptyInputHint
  else
    let newTask := {| task_id := generateId now random;
                      task_text := taskTextVal;
                      task_status := lit "todo" |} in
    match createTaskElement (task_object newTask) with
    | Some taskElement =>
        saveTasksToLocalStorage
          (emit (appendChild w todo (set_lastColumn taskElement todo)) (Flash todo))
    | None => saveTasksToLocalStorage w
    end.

(** [deleteTask]. The function does not test that the element it finds
    is a task: handed the id of an element of the page, it removes that
    element, with every task inside it, and saves. The model stops
    there: it records [PageElementHandled] and leaves the containers and
    the slot as they were, which says nothing about the page after such
    a call. *)
Definition deleteTask (w : world) (taskId : jsstring) : world :=
  match getElementById w taskId with
  | Some (TaskNode f) =>
      saveTasksToLocalStorage (set_children w (in_column f) (before f ++ after f))
  | Some PageNode => emit w (PageElementHandled taskId)
  | None => emit w (Console (DeleteNotFound taskId))
  end.

(** The [onclick] of the delete button of the [n]-th task of column [c]:
    it deletes by the id of its task and flashes the column it is in. *)
Definition deleteBtn_onclick (w : world) (c : column) (n : nat) : world :=
  match nth_error (children w c) n with
  | Some el => emit (deleteTask w (el_id el)) (Flash c)
  | None => w
  end.

(** The [drop] listener of the column [targetColumnId], given the text of
    the drag's data transfer. The element keeps its place when it is
    dropped on the column it is in, and becomes the last child of the
    target's container otherwise. The safety check of the listener only
    tests that an element was found, not that it is a task: handed an
    element of the page, the listener goes on to append that element to
    the container (which throws when the element contains the
    container), to style the first task text inside it and to fire the
    confetti by the element's own [dataset.lastColumn]. The model stops
    there, as for [deleteTask]. *)
Definition drop (w : world) (targetColumnId : column) (taskId : jsstring) : world :=
  match getElementById w taskId with
  | None => emit w (Console (DropNotFound taskId))
  | Some PageNode => emit w (PageElementHandled taskId)
  | Some (TaskNode f) =>
      let taskElement := element f in
      let newlyDone :=
        match lastColumn taskElement with
        | Some done => false
        | _ => true
        end in
      let styled := set_done taskElement (column_eqb targetColumnId done) in
      let updated := set_lastColumn styled targetColumnId in
      let w1 :=
        if column_eqb (in_column f) targetColumnId
        then set_children w (in_column f) (before f ++ updated :: after f)
        else appendChild (set_children w (in_column f) (before f ++ after f))
                         targetColumnId updated in
      let w2 := emit w1 (Flash targetColumnId) in
      let w3 :=
        if column_eqb targetColumnId done && newlyDone
        then emit w2 Confetti else w2 in
      saveTasksToLocalStorage w3
  end.

(** How the body of a [try] ended. *)
Inductive completion :=
| Normal (w : world)
| Thrown (w : world).

(** The callback of [tasks.forEach] in [loadTasksFromLocalStorage].
    Reading [task.id] off [null] throws a TypeError. *)
Definition load_task (w : world) (t : json) : completion :=
  if is_null t then Thrown w
  else
    match as_string (prop t (lit "id")), as_string (prop t (lit "text")),
          as_string (prop t (lit "status")) with
    | Some _, Some _, Some status =>
        match createTaskElement t with
        | None => Normal w
        | Some taskElement =>
            match taskContainers status with
            | Some c =>
                Normal (appendChild w c
                          (set_done (set_lastColumn taskElement c)
                                    (eqb status (lit "done"))))
            | None =>
                Normal (appendChild
                          (emit w (Console (ContainerNotFound status)))
                          todo (set_lastColumn taskElement todo))
            end
        end
    | _, _, _ => Normal (emit w (Console (InvalidTaskSkipped t)))
    end.

(** [tasks.forEach(..)]: an exception ends the loop, and what was done
    before it stays done. *)
Fixpoint load_tasks (w : world) (tasks : list json) : completion :=
  match tasks with
  | [] => Normal w
  | t :: rest =>
      match load_task w t with
      | Normal w' => load_tasks w' rest
      | Thrown w' => Thrown w'
      end
  end.

(** [localStorage.removeItem('kanbanTasks')] *)
Definition removeItem (w : world) : world := set_storage w None.

(** [loadTasksFromLocalStorage] *)
Definition loadTasksFromLocalStorage (w : world) : world :=
  match kanbanTasks w with
  | Some storedTasks =>
      if truthy storedTasks then
        let attempt :=
          match JSON_parse storedTasks with
          | None => Thrown w
          | Some (JArray tasks) => load_tasks w tasks
          | Some _ => Normal (removeItem (emit w (Console NotAnArray)))
          end in
        match attempt with
        | Normal w' => w'
        | Thrown w' => removeItem (emit w' (Console FailedToParse))
        end
      else w
  | None => w
  end.

(** Modelled from the spec: the HTML page is not among the sources. As
    it is parsed, before any script has run, its three task containers
    are empty: every task is created by [addTask] or by the load. *)
Definition page (slot : option stored) : world :=
  {| todoTasks := []; inprogressTasks := []; doneTasks := [];
     kanbanTasks := slot; trace := [] |}.

(** [initKanban] on the fresh page: it registers the listeners and loads
    the stored tasks. *)
Definition initKanban (slot : option stored) : world :=
  loadTasksFromLocalStorage (page slot).

(** The states of the page the model follows: after [initKanban],
    whatever the slot held, and after each run of a listener that was
    not handed the id of an element of the page itself. The text of
    every drop, every id passed to [deleteTask] and the id of every task
    whose delete button is clicked are outside [page_ids]. A task may
    carry such an id, since the load accepts any string, as long as it
    is neither dragged nor deleted. *)
Inductive task_run : world -> Prop :=
| run_init slot : task_run (initKanban slot)
| run_addTask w value now random :
    task_run w -> task_run (addTask w value now random)
| run_drop w c taskId :
    task_run w -> is_page_id taskId = false -> task_run (drop w c taskId)
| run_deleteTask w taskId :
    task_run w -> is_page_id taskId = false -> task_run (deleteTask w taskId)
| run_deleteBtn w c n :
    task_run w ->
    (forall el, nth_error (children w c) n = Some el -> is_page_id (el_id el) = false) ->
    task_run (deleteBtn_onclick w c n).

(** *** The board, read off the document *)

(** The script has no model of the board apart from the document. A
    task of the spec's Board is a task element seen with the column whose
    container holds it. *)
Record Task := {
  id : jsstring;
  text : jsstring;
  col : column }.

Definition task_of (c : column) (el : taskElement) : Task :=
  {| id := el_id el; text := textContent el; col := c |}.

(** The spec's query [listByColumn], answered from the document as
    [saveTasksToLocalStorage] reads it: the tasks of the column's
    container, in the order of its children. *)
Definition listByColumn (w : world) (c : column) : list Task :=
  map (task_of c) (children w c).

Definition board (w : world) : list Task :=
  flat_map (listByColumn w) columns.

Definition task_ids (w : world) : list jsstring := map id (board w).

(** The element as the drop listener leaves it. *)
Definition dropped (el : taskElement) (target : column) : taskElement :=
  set_lastColumn (set_done el (column_eqb target done)) target.

(** Whether the drop listener calls [triggerConfetti] for this element. *)
Definition newly_done (el : taskElement) (target : column) : bool :=
  column_eqb target done &&
  match lastColumn el with
  | Some done => false
  | _ => true
  end.

(** The task elements of the page in document order. *)
Definition elements (w : world) : list taskElement :=
  todoTasks w ++ inprogressTasks w ++ doneTasks w.

(** How many elements of a column carry the id [i]. *)
Definition count_in (w : world) (c : column) (i : jsstring) : nat :=
  count_occ JS.eq_dec (map el_id (children w c)) i.

(** The column of the task [getElementById] finds. *)
Definition column_of (w : world) (i : jsstring) : option column :=
  match getElementById w i with
  | Some (TaskNode f) => Some (in_column f)
  | _ => None
  end.

(** The columns that come before [c] in the document. *)
Definition columns_before (c : column) : list column :=
  match c with
  | todo => []
  | inprogress => [todo]
  | done => [todo; inprogress]
  end.

(** The events a listener added, given the worlds before and after. *)
Definition fired (w w' : world) : list event :=
  skipn (List.length (trace w)) (trace w').

Definition is_Saved (e : event) : bool :=
  match e with Saved _ => true | _ => false end.

Definition is_Confetti (e : event) : bool :=
  match e with Confetti => true | _ => false end.

(** What the script keeps on each task element agrees with where the
    element is: [dataset.lastColumn] names its column, and its text is
    styled as done in the [done] column only. *)
Definition consistent (w : world) : Prop :=
  forall c el, In el (children w c) ->
    lastColumn el = Some c /\ task_text_done el = column_eqb c done.

(** *** What a stored array turns into *)

(** The record a stored value is read as: its [id], [text] and [status]
    when all three are strings. *)
Definition record_of (t : json) : option task :=
  match as_string (prop t (lit "id")), as_string (prop t (lit "text")),
        as_string (prop t (lit "status")) with
  | Some i, Some x, Some s =>
      Some {| task_id := i; task_text := x; task_status := s |}
  | _, _, _ => None
  end.

(** The column a record lands in. *)
Definition destination (status : jsstring) : column :=
  match taskContainers status with
  | Some c => c
  | None => todo
  end.

(** The values the loop gets to: those before the first [null]. *)
Fixpoint upto_null (tasks : list json) : list json :=
  match tasks with
  | [] => []
  | t :: rest => if is_null t then [] else t :: upto_null rest
  end.

Fixpoint records (tasks : list json) : list task :=
  match tasks with
  | [] => []
  | t :: rest =>
      match record_of t with
      | Some r => r :: records rest
      | None => records rest
      end
  end.

(** The records of a slot that become tasks. *)
Definition accepted (slot : option stored) : list task :=
  match slot with
  | Some (Parses (JArray tasks)) => records (upto_null tasks)
  | _ => []
  end.

Definition lands_in (c : column) (r : task) : bool :=
  column_eqb (destination (task_status r)) c.

(** The warning a stored value draws, if any. *)
Definition warning_for (t : json) : list event :=
  match record_of t with
  | None => [Console (InvalidTaskSkipped t)]
  | Some r =>
      match taskContainers (task_status r) with
      | Some _ => []
      | None => [Console (ContainerNotFound (task_status r))]
      end
  end.

(** The element a record turns into. *)
Definition loaded_element (r : task) : taskElement :=
  {| el_id := task_id r; textContent := task_text r;
     task_text_done := column_eqb (destination (task_status r)) done;
     lastColumn := Some (destination (task_status r)) |}.

(** The world a completion leaves behind. *)
Definition world_of (k : completion) : world :=
  match k with Normal w => w | Thrown w => w end.

(** The runs of the page on which ids stay apart: the slot's accepted
    records have distinct ids, and each id [generateId] hands out is not
    on the board at that time. *)
Inductive distinct_run : world -> Prop :=
| distinct_init slot :
    NoDup (map task_id (accepted slot)) -> distinct_run (initKanban slot)
| distinct_addTask w value now random :
    distinct_run w -> ~ In (generateId now random) (task_ids w) ->
    distinct_run (addTask w value now random)
| distinct_drop w c taskId :
    distinct_run w -> distinct_run (drop w c taskId)
| distinct_deleteTask w taskId :
    distinct_run w -> distinct_run (deleteTask w taskId)
| distinct_deleteBtn w c n :
    distinct_run w -> distinct_run (deleteBtn_onclick w c n).

(** *** Further notions used in the properties of the listeners *)

(** The slot holds the snapshot of the board as it is now. *)
Definition in_sync (w : world) : Prop :=
  kanbanTasks w =
  Some (JSON_stringify (JArray (map task_object (collect_tasks w)))).

(** A record as the next snapshot writes it: its status is the id of the
    column it landed in. *)
Definition normalised (r : task) : task :=
  {| task_id := task_id r; task_text := task_text r;
     task_status := column_id (destination (task_status r)) |}.

(** What the board keeps of a task when it moves: its id and its text. *)
Definition id_and_text (t : Task) : jsstring * jsstring := (id t, text t).

Definition pair_eq_dec : forall a b : jsstring * jsstring, {a = b} + {a <> b}.
Proof. decide equality; apply JS.eq_dec. Defined.

Arguments pair_eq_dec : simpl never.

End Kanban.

(** ** The tab switcher *)

Module Tabs.

(** The four elements [initializeTabDOMElements] looks up. *)
Inductive tab_element := tabKanban | tabCalculator | kanbanContent | calculatorContent.

(** The warnings and errors the tab script writes to the console. *)
Inductive tab_message :=
| CannotSwitch (activeIndex : Z)   (* warn: Cannot switch tabs. .. activeIndex .. is out of bounds *)
| NotAnElement (index : nat)       (* warn: Tab button or content at index .. is not a valid HTMLElement *)
| ElementsNotFound                 (* error: One or more critical tab navigation elements were NOT FOUND *)
| ElementNotFound (e : tab_element)(* error: Tab button / content div with ID '..' was NOT FOUND *)
| DefaultTabNotSet.                (* warn: Default tab could not be set *)

(** The two arrays of the script, each element given by the one class
    the script sets on it: a button by whether it has [active-tab], a
    content div by whether it has [hidden]. An element of the page that
    is in no array is never written. *)
Record state := {
  tabButtons : list bool;
  tabContents : list bool;
  console : list tab_message }.

(** [if (!x) console.error(.. ID '..' was NOT FOUND)] for one of the four
    elements. *)
Definition not_found (e : tab_element) (x : option bool) : list tab_message :=
  match x with
  | None => [ElementNotFound e]
  | Some _ => []
  end.

(** [initializeTabDOMElements], given what [getElementById] finds for
    tabKanban, tabCalculator, kanbanContent and calculatorContent: [None]
    for a missing element, otherwise the class the page gave it. When
    one is missing, the console gets the general error and then one
    error for each missing element, in the order of the lookups. *)
Definition initializeTabDOMElements
    (tabKanbanBtn tabCalculatorBtn kanbanContentDiv calculatorContentDiv : option bool)
  : state :=
  match tabKanbanBtn, tabCalculatorBtn, kanbanContentDiv, calculatorContentDiv with
  | Some b0, Some b1, Some c0, Some c1 =>
      {| tabButtons := [b0; b1]; tabContents := [c0; c1]; console := [] |}
  | _, _, _, _ =>
      {| tabButtons := []; tabContents := [];
         console := ElementsNotFound ::
                    not_found tabKanban tabKanbanBtn ++
                    not_found tabCalculator tabCalculatorBtn ++
                    not_found kanbanContent kanbanContentDiv ++
                    not_found calculatorContent calculatorContentDiv |}
  end.

(** The callback of [tabButtons.forEach] in [switchTab], from [index]
    on: [tabContents[index]] is an element when the array reaches that
    far. *)
Fixpoint forEach (index : nat) (activeIndex : Z) (buttons contents : list bool)
  : list bool * list bool * list tab_message :=
  match buttons with
  | [] => ([], contents, [])
  | b :: bs =>
      match contents with
      | c :: cs =>
          let '(bs', cs', log) := forEach (S index) activeIndex bs cs in
          if Z.eqb (Z.of_nat index) activeIndex
          then (true :: bs', false :: cs', log)
          else (false :: bs', true :: cs', log)
      | [] =>
          let '(bs', cs', log) := forEach (S index) activeIndex bs [] in
          (b :: bs', cs', NotAnElement index :: log)
      end
  end.

(** [switchTab]; its callers pass 0 and 1. *)
Definition switchTab (s : state) (activeIndex : Z) : state :=
  if Nat.eqb (List.length (tabButtons s)) 0
     || Nat.eqb (List.length (tabContents s)) 0
     || Z.ltb activeIndex 0
     || Z.leb (Z.of_nat (List.length (tabButtons s))) activeIndex
  then {| tabButtons := tabButtons s; tabContents := tabContents s;
          console := console s ++ [CannotSwitch activeIndex] |}
  else
    let '(bs, cs, log) := forEach 0 activeIndex (tabButtons s) (tabContents s) in
    {| tabButtons := bs; tabContents := cs; console := console s ++ log |}.

(** [initTabs]: the elements are looked up, the click listeners are
    attached, and the Kanban tab is shown when the arrays are filled. *)
Definition initTabs
    (tabKanbanBtn tabCalculatorBtn kanbanContentDiv calculatorContentDiv : option bool)
  : state :=
  let s := initializeTabDOMElements tabKanbanBtn tabCalculatorBtn
                                    kanbanContentDiv calculatorContentDiv in
  if Nat.ltb 0 (List.length (tabButtons s)) && Nat.ltb 0 (List.length (tabContents s))
  then switchTab s 0
  else {| tabButtons := tabButtons s; tabContents := tabContents s;
          console := console s ++ [DefaultTabNotSet] |}.

(** The states of the tab switcher: after [initTabs], and after each
    click on a tab button that exists. *)
Inductive reached : state -> Prop :=
| reached_init b0 b1 c0 c1 : reached (initTabs b0 b1 c0 c1)
| reached_click s activeIndex :
    reached s -> (activeIndex = 0 \/ activeIndex = 1)%Z ->
    reached (switchTab s activeIndex).

(** Tab [k] is the one shown: its button is active and its content is
    not hidden, and every other button is inactive with its content
    hidden. *)
Definition shows (s : state) (k : nat) : Prop :=
  forall n,
    n < List.length (tabButtons s) ->
    nth_error (tabButtons s) n = Some (Nat.eqb n k) /\
    nth_error (tabContents s) n = Some (negb (Nat.eqb n k)).

End Tabs.

(** ** The Kanban board on a page that misses elements

    The script guards each use of [taskInput] and of the three task
    containers against a missing element. Here the page says which of
    these four it has; the column elements themselves are taken to be
    there, as before. On a page that has all four, the listeners below
    are the ones above. *)

Module KanbanPage.

Import JS Kanban.

(** What [getElementById] finds at [initializeKanbanDOMElements]. *)
Record layout := {
  has_taskInput : bool;
  has_todoTasks : bool;
  has_inprogressTasks : bool;
  has_doneTasks : bool }.

Definition complete : layout :=
  {| has_taskInput := true; has_todoTasks := true;
     has_inprogressTasks := true; has_doneTasks := true |}.

Definition has_container (p : layout) (c : column) : bool :=
  match c with
  | todo => has_todoTasks p
  | inprogress => has_inprogressTasks p
  | done => has_doneTasks p
  end.

(** The console errors of [addTask], of the drop listener and of the
    load about a missing element. *)
Inductive page_error :=
| NoTaskInput                      (* Cannot add task - taskInput element is not initialized or not found *)
| NoTodoContainer                  (* 'To Do' task container ('todoTasks') is not a valid HTMLElement. Cannot add task *)
| CannotPlace (status : jsstring)  (* 'todo' task container also not found. Cannot place task *)
| NoTargetContainer (c : column).  (* Target task container for column ID .. not found or not an HTMLElement *)

(** [taskContainers[key] instanceof HTMLElement] on that page. *)
Definition taskContainers_on (p : layout) (key : jsstring) : option column :=
  match taskContainers key with
  | Some c => if has_container p c then Some c else None
  | None => None
  end.

(** [addTask] with its guards. *)
Definition addTask_on (p : layout) (w : world) (value : jsstring) (now : N)
    (random : jsstring) : world * list page_error :=
  if negb (has_taskInput p) then (w, [NoTaskInput])
  else
    let taskTextVal := trim value in
    if eqb taskTextVal [] then (emit w EmptyInputHint, [])
    else
      let newTask := {| task_id := generateId now random;
                        task_text := taskTextVal;
                        task_status := lit "todo" |} in
      match createTaskElement (task_object newTask) with
      | Some taskElement =>
          if has_todoTasks p
          then (saveTasksToLocalStorage
                  (emit (appendChild w todo (set_lastColumn taskElement todo))
                        (Flash todo)), [])
          else (saveTasksToLocalStorage w, [NoTodoContainer])
      | None =>
          (saveTasksToLocalStorage w,
           if has_todoTasks p then [] else [NoTodoContainer])
      end.

(** The [drop] listener with its guard on the target's container. *)
Definition drop_on (p : layout) (w : world) (targetColumnId : column)
    (taskId : jsstring) : world * list page_error :=
  match getElementById w taskId with
  | None => (emit w (Console (DropNotFound taskId)), [])
  | Some _ =>
      if has_container p targetColumnId
      then (drop w targetColumnId taskId, [])
      else (w, [NoTargetContainer targetColumnId])
  end.

(** The callback of the load with its two container tests. *)
Definition load_task_on (p : layout) (w : world) (t : json)
  : completion * list page_error :=
  if is_null t then (Thrown w, [])
  else
    match as_string (prop t (lit "id")), as_string (prop t (lit "text")),
          as_string (prop t (lit "status")) with
    | Some _, Some _, Some status =>
        match createTaskElement t with
        | None => (Normal w, [])
        | Some taskElement =>
            match taskContainers_on p status with
            | Some c =>
                (Normal (appendChild w c
                           (set_done (set_lastColumn taskElement c)
                                     (eqb status (lit "done")))), [])
            | None =>
                let w' := emit w (Console (ContainerNotFound status)) in
                if has_todoTasks p
                then (Normal (appendChild w' todo (set_lastColumn taskElement todo)), [])
                else (Normal w', [CannotPlace status])
            end
        end
    | _, _, _ => (Normal (emit w (Console (InvalidTaskSkipped t))), [])
    end.

Fixpoint load_tasks_on (p : layout) (w : world) (tasks : list json)
  : completion * list page_error :=
  match tasks with
  | [] => (Normal w, [])
  | t :: rest =>
      match load_task_on p w t with
      | (Normal w', errs) =>
          let '(k, errs') := load_tasks_on p w' rest in (k, errs ++ errs')
      | (Thrown w', errs) => (Thrown w', errs)
      end
  end.

Definition loadTasksFromLocalStorage_on (p : layout) (w : world)
  : world * list page_error :=
  match kanbanTasks w with
  | Some storedTasks =>
      if truthy storedTasks then
        let attempt :=
          match JSON_parse storedTasks with
          | None => (Thrown w, [])
          | Some (JArray tasks) => load_tasks_on p w tasks
          | Some _ => (Normal (removeItem (emit w (Console NotAnArray))), [])
          end in
        match attempt with
        | (Normal w', errs) => (w', errs)
        | (Thrown w', errs) =>
            (removeItem (emit w' (Console FailedToParse)), errs)
        end
      else (w, [])
  | None => (w, [])
  end.

(** The load of [initKanban] on such a page, once
    [initializeKanbanDOMElements] has looked the elements up (and named
    the missing ones on the console). *)
Definition initKanban_on (p : layout) (slot : option stored)
  : world * list page_error :=
  loadTasksFromLocalStorage_on p (page slot).

(** The states of such a page. *)
Inductive reachable_on (p : layout) : world -> Prop :=
| reach_on_init slot : reachable_on p (fst (initKanban_on p slot))
| reach_on_addTask w value now random :
    reachable_on p w -> reachable_on p (fst (addTask_on p w value now random))
| reach_on_drop w c taskId :
    reachable_on p w -> reachable_on p (fst (drop_on p w c taskId))
| reach_on_deleteTask w taskId :
    reachable_on p w -> reachable_on p (deleteTask w taskId)
| reach_on_deleteBtn w c n :
    reachable_on p w -> reachable_on p (deleteBtn_onclick w c n).

(** The column a record with that status is put in on that page, if
    any: the column the status names when its container is there, else
    [todo] when that container is there. *)
Definition placed_on (p : layout) (status : jsstring) : option column :=
  match taskContainers_on p status with
  | Some c => Some c
  | None => if has_todoTasks p then Some todo else None
  end.

Definition lands_on (p : layout) (c : column) (r : task) : bool :=
  match placed_on p (task_status r) with
  | Some c' => column_eqb c' c
  | None => false
  end.

(** The element a record turns into in column [c]. *)
Definition element_in (c : column) (r : task) : taskElement :=
  {| el_id := task_id r; textContent := task_text r;
     task_text_done := column_eqb c done; lastColumn := Some c |}.

(** The error a record draws when no container takes it. *)
Definition error_for (p : layout) (r : task) : list page_error :=
  match placed_on p (task_status r) with
  | Some _ => []
  | None => [CannotPlace (task_status r)]
  end.

End KanbanPage.

(** ** Facts about strings *)

Module JSFacts.

Import JS.

Lemma eqb_eq (a b : jsstring) : eqb a b = true <-> a = b.
Proof.
  revert b; induction a as [|x a IH]; intros [|y b]; simpl; split;
    try discriminate; try reflexivity.
  - intros H. apply andb_true_iff in H as [Hx Hab].
    apply N.eqb_eq in Hx. apply IH in Hab. now subst.
  - intros H. injection H as -> ->.
    rewrite N.eqb_refl. simpl. now apply IH.
Qed.

Lemma eqb_refl (a : jsstring) : eqb a a = true.
Proof. now apply eqb_eq. Qed.

Lemma eqb_neq (a b : jsstring) : eqb a b = false <-> a <> b.
Proof.
  split.
  - intros H E. apply eqb_eq in E. congruence.
  - intros H. destruct (eqb a b) eqn:E; [|reflexivity].
    apply eqb_eq in E. contradiction.
Qed.

(** A decimal numeral followed by a dash can be read back in one way. *)
Lemma uint_chars_dash_inj (u1 : Decimal.uint) :
  forall (u2 : Decimal.uint) (r1 r2 : jsstring),
    uint_chars u1 ++ 45%N :: r1 = uint_chars u2 ++ 45%N :: r2 ->
    u1 = u2 /\ r1 = r2.
Proof.
  induction u1 as [|u1 IH|u1 IH|u1 IH|u1 IH|u1 IH|u1 IH|u1 IH|u1 IH|u1 IH|u1 IH];
    intros [|u2|u2|u2|u2|u2|u2|u2|u2|u2|u2] r1 r2 H; simpl in H;
    try discriminate H;
    try (injection H as H; apply IH in H as [-> ->]; now split).
  injection H as ->. now split.
Qed.

Lemma string_of_N_dash_inj (n1 n2 : N) (r1 r2 : jsstring) :
  string_of_N n1 ++ lit "-" ++ r1 = string_of_N n2 ++ lit "-" ++ r2 ->
  n1 = n2 /\ r1 = r2.
Proof.
  unfold string_of_N. intros H.
  apply uint_chars_dash_inj in H as [Hu Hr].
  split; [now apply DecimalN.Unsigned.to_uint_inj | exact Hr].
Qed.

(** *** Trimming *)

Lemma trimStart_split (s : jsstring) :
  exists l, s = l ++ trimStart s /\ forallb isWhiteSpace l = true.
Proof.
  induction s as [|c s IH]; [now exists []|].
  simpl. destruct (isWhiteSpace c) eqn:E.
  - destruct IH as (l & Hs & Hl). exists (c :: l). simpl.
    rewrite E, Hl. split; [now f_equal | reflexivity].
  - now exists [].
Qed.

Lemma trimStart_head (s : jsstring) (c : N) (rest : jsstring) :
  trimStart s = c :: rest -> isWhiteSpace c = false.
Proof.
  induction s as [|x s IH]; simpl; [discriminate|].
  destruct (isWhiteSpace x) eqn:E; [exact IH|].
  now intros [= <- _].
Qed.

Lemma trimStart_blank (s : jsstring) :
  trimStart s = [] <-> forallb isWhiteSpace s = true.
Proof.
  induction s as [|c s IH]; simpl; [tauto|].
  destruct (isWhiteSpace c); simpl; [exact IH|].
  split; discriminate.
Qed.

Lemma forallb_rev (l : jsstring) :
  forallb isWhiteSpace (rev l) = forallb isWhiteSpace l.
Proof.
  induction l as [|c l IH]; [reflexivity|].
  simpl. rewrite forallb_app, IH. simpl. rewrite andb_true_r. apply andb_comm.
Qed.

(** [s.trim()] cuts white space off both ends of [s] and nothing else. *)
Lemma trim_split (s : jsstring) :
  exists l r,
    s = l ++ trim s ++ r /\
    forallb isWhiteSpace l = true /\ forallb isWhiteSpace r = true.
Proof.
  destruct (trimStart_split s) as (l & Hs & Hl).
  destruct (trimStart_split (rev (trimStart s))) as (r & Hr & Hrw).
  exists l, (rev r). unfold trim, trimEnd. split; [|split].
  - rewrite Hs at 1. f_equal.
    rewrite <- (rev_involutive (trimStart s)) at 1.
    rewrite Hr at 1. now rewrite rev_app_distr.
  - exact Hl.
  - now rewrite forallb_rev.
Qed.

Lemma trim_last (s init : jsstring) (c : N) :
  trim s = init ++ [c] -> isWhiteSpace c = false.
Proof.
  unfold trim, trimEnd. intros H.
  apply (f_equal (@rev N)) in H. rewrite rev_involutive, rev_app_distr in H.
  simpl in H. now apply trimStart_head in H.
Qed.

Lemma trim_head (s rest : jsstring) (c : N) :
  trim s = c :: rest -> isWhiteSpace c = false.
Proof.
  intros H.
  destruct (trimStart_split (rev (trimStart s))) as (r & Hr & _).
  assert (Hpre : trimStart s = trim s ++ rev r).
  { unfold trim, trimEnd.
    rewrite <- (rev_involutive (trimStart s)) at 1.
    rewrite Hr at 1. now rewrite rev_app_distr. }
  rewrite H in Hpre. simpl in Hpre. now apply trimStart_head in Hpre.
Qed.

Lemma trim_blank (s : jsstring) :
  trim s = [] <-> forallb isWhiteSpace s = true.
Proof.
  split.
  - intros H. destruct (trim_split s) as (l & r & Hs & Hl & Hr).
    rewrite H in Hs. rewrite Hs, forallb_app, Hl. exact Hr.
  - intros H. unfold trim, trimEnd.
    apply trimStart_blank in H. rewrite H. reflexivity.
Qed.

End JSFacts.

(** ** Facts about the board *)

Module KanbanFacts.

Import JS Kanban JSFacts.

(** *** Reading a world after a write *)

Lemma column_eqb_eq (a b : column) : column_eqb a b = true <-> a = b.
Proof. destruct a, b; simpl; split; congruence. Qed.

Lemma column_eqb_refl (a : column) : column_eqb a a = true.
Proof. now destruct a. Qed.

Lemma children_set_children (w : world) (c c' : column) (l : list taskElement) :
  children (set_children w c l) c' = if column_eqb c c' then l else children w c'.
Proof. now destruct c, c'. Qed.

Lemma children_emit (w : world) (e : event) (c : column) :
  children (emit w e) c = children w c.
Proof. now destruct c. Qed.

Lemma children_set_storage (w : world) (s : option stored) (c : column) :
  children (set_storage w s) c = children w c.
Proof. now destruct c. Qed.

Lemma children_appendChild (w : world) (c c' : column) (el : taskElement) :
  children (appendChild w c el) c' =
  if column_eqb c c' then children w c' ++ [el] else children w c'.
Proof. now destruct c, c'. Qed.

Lemma children_save (w : world) (c : column) :
  children (saveTasksToLocalStorage w) c = children w c.
Proof. now destruct c. Qed.

Lemma trace_set_children (w : world) (c : column) (l : list taskElement) :
  trace (set_children w c l) = trace w.
Proof. now destruct c. Qed.

Lemma trace_appendChild (w : world) (c : column) (el : taskElement) :
  trace (appendChild w c el) = trace w.
Proof. now destruct c. Qed.

Lemma kanbanTasks_set_children (w : world) (c : column) (l : list taskElement) :
  kanbanTasks (set_children w c l) = kanbanTasks w.
Proof. now destruct c. Qed.

Lemma kanbanTasks_appendChild (w : world) (c : column) (el : taskElement) :
  kanbanTasks (appendChild w c el) = kanbanTasks w.
Proof. now destruct c. Qed.

Lemma elements_save (w : world) :
  elements (saveTasksToLocalStorage w) = elements w.
Proof. reflexivity. Qed.

Lemma trace_emit (w : world) (e : event) : trace (emit w e) = trace w ++ [e].
Proof. reflexivity. Qed.

(** Rewriting with [frame] reads a container, or the trace, through the
    writes that do not touch it. *)
Create Rewrite HintDb frame.

#[export] Hint Rewrite children_emit children_set_storage children_save
  children_set_children children_appendChild trace_set_children
  trace_appendChild trace_emit kanbanTasks_set_children
  kanbanTasks_appendChild elements_save : frame.

Lemma fired_app (w w' : world) (l : list event) :
  trace w' = trace w ++ l -> fired w w' = l.
Proof.
  intros H. unfold fired. rewrite H, skipn_app, skipn_all, Nat.sub_diag.
  reflexivity.
Qed.

Lemma listByColumn_ext (w w' : world) (c : column) :
  children w' c = children w c -> listByColumn w' c = listByColumn w c.
Proof. unfold listByColumn. now intros ->. Qed.

Lemma board_ext (w w' : world) :
  (forall c, listByColumn w' c = listByColumn w c) -> board w' = board w.
Proof. intros H. unfold board, columns. simpl. now rewrite !H. Qed.

(** *** Loading *)

Lemma taskContainers_column_id (c : column) : taskContainers (column_id c) = Some c.
Proof. now destruct c. Qed.

Lemma taskContainers_done (status : jsstring) (c : column) :
  taskContainers status = Some c -> eqb status (lit "done") = column_eqb c done.
Proof.
  unfold taskContainers.
  destruct (eqb status (lit "todo")) eqn:E1.
  { apply eqb_eq in E1. subst. intros [= <-]. reflexivity. }
  destruct (eqb status (lit "inprogress")) eqn:E2.
  { apply eqb_eq in E2. subst. intros [= <-]. reflexivity. }
  destruct (eqb status (lit "done")) eqn:E3; [|discriminate].
  intros [= <-]. reflexivity.
Qed.

Lemma record_of_task_object (t : task) : record_of (task_object t) = Some t.
Proof. now destruct t. Qed.

Lemma is_null_true (t : json) : is_null t = true <-> t = JNull.
Proof. destruct t; simpl; split; congruence. Qed.

Lemma is_null_false (t : json) : is_null t = false <-> t <> JNull.
Proof. destruct t; simpl; split; congruence. Qed.

(** What one round of the loop does with a value other than [null]. *)
Lemma load_task_effect (w : world) (t : json) :
  is_null t = false ->
  exists w',
    load_task w t = Normal w' /\
    (forall c, children w' c =
               children w c ++
               match record_of t with
               | Some r => if lands_in c r then [loaded_element r] else []
               | None => []
               end) /\
    kanbanTasks w' = kanbanTasks w /\
    trace w' = trace w ++ warning_for t.
Proof.
  intros Hnull.
  unfold load_task, createTaskElement, warning_for, record_of. rewrite Hnull.
  destruct (as_string (prop t (lit "id"))) as [i|];
    [destruct (as_string (prop t (lit "text"))) as [x|];
     [destruct (as_string (prop t (lit "status"))) as [s|]|]|];
    try (eexists; split; [reflexivity|]; split; [|split]; try reflexivity;
         intros c; now rewrite children_emit, app_nil_r).
  unfold lands_in, loaded_element, destination. cbn [task_status task_id task_text].
  destruct (taskContainers s) as [c0|] eqn:Hc.
  - eexists; split; [reflexivity|]. split; [|split].
    + intros c. rewrite children_appendChild, (taskContainers_done _ _ Hc).
      destruct (column_eqb c0 c) eqn:E; [reflexivity | now rewrite app_nil_r].
    + apply kanbanTasks_appendChild.
    + rewrite trace_appendChild. now rewrite app_nil_r.
  - eexists; split; [reflexivity|]. split; [|split]; try reflexivity.
    intros c. destruct c; simpl; now rewrite ?app_nil_r.
Qed.

Lemma filter_lands_cons (c : column) (r : task) (l : list task) :
  map loaded_element (filter (lands_in c) (r :: l)) =
  (if lands_in c r then [loaded_element r] else []) ++
  map loaded_element (filter (lands_in c) l).
Proof. simpl. now destruct (lands_in c r). Qed.

(** What the whole loop does: it stops at the first [null], and up to
    there each record is appended to the container of its column. *)
Lemma load_tasks_effect (tasks : list json) :
  forall w : world,
    (forall c, children (world_of (load_tasks w tasks)) c =
               children w c ++
               map loaded_element
                   (filter (lands_in c) (records (upto_null tasks)))) /\
    kanbanTasks (world_of (load_tasks w tasks)) = kanbanTasks w /\
    trace (world_of (load_tasks w tasks)) =
      trace w ++ flat_map warning_for (upto_null tasks).
Proof.
  induction tasks as [|t rest IH]; intros w.
  - simpl. repeat split; intros; now rewrite app_nil_r.
  - cbn [load_tasks upto_null]. destruct (is_null t) eqn:Hnull.
    + unfold load_task. rewrite Hnull. simpl.
      repeat split; intros; now rewrite app_nil_r.
    + destruct (load_task_effect w t Hnull) as (w1 & Hstep & Hch & Hst & Htr).
      rewrite Hstep.
      destruct (IH w1) as (IHch & IHst & IHtr).
      split; [|split].
      * intros c. rewrite IHch, Hch, <- app_assoc. f_equal.
        cbn [records]. destruct (record_of t) as [r|]; [|reflexivity].
        now rewrite filter_lands_cons.
      * congruence.
      * rewrite IHtr, Htr, <- app_assoc. reflexivity.
Qed.

Lemma upto_null_id (tasks : list json) : ~ In JNull tasks -> upto_null tasks = tasks.
Proof.
  induction tasks as [|t rest IH]; intros H; [reflexivity|].
  cbn [upto_null]. destruct (is_null t) eqn:Hnull.
  - apply is_null_true in Hnull. subst. exfalso. apply H. now left.
  - f_equal. apply IH. intros Hin. apply H. now right.
Qed.

Lemma load_tasks_normal (tasks : list json) :
  forall w : world,
    ~ In JNull tasks -> load_tasks w tasks = Normal (world_of (load_tasks w tasks)).
Proof.
  induction tasks as [|t rest IH]; intros w H; [reflexivity|].
  assert (Hnull : is_null t = false).
  { apply is_null_false. intros ->. apply H. now left. }
  destruct (load_task_effect w t Hnull) as (w1 & Hstep & _).
  cbn [load_tasks]. rewrite Hstep. apply IH. intros Hin. apply H. now right.
Qed.

Lemma load_tasks_thrown (tasks : list json) :
  forall w : world,
    In JNull tasks -> load_tasks w tasks = Thrown (world_of (load_tasks w tasks)).
Proof.
  induction tasks as [|t rest IH]; intros w H; [destruct H|].
  cbn [load_tasks]. destruct (is_null t) eqn:Hnull.
  - unfold load_task. now rewrite Hnull.
  - destruct (load_task_effect w t Hnull) as (w1 & Hstep & _).
    rewrite Hstep. apply IH. destruct H as [H|H]; [|exact H].
    apply is_null_false in Hnull. congruence.
Qed.

(** The document after [initKanban], whatever the slot held. *)
Lemma initKanban_children (slot : option stored) (c : column) :
  children (initKanban slot) c =
  map loaded_element (filter (lands_in c) (accepted slot)).
Proof.
  unfold initKanban, loadTasksFromLocalStorage, accepted.
  destruct slot as [[| |v]|]; try (now destruct c).
  destruct v; try (now destruct c).
  cbn [kanbanTasks page truthy JSON_parse].
  destruct (load_tasks_effect items (page (Some (Parses (JArray items)))))
    as (Hch & _ & _).
  specialize (Hch c).
  destruct (load_tasks (page (Some (Parses (JArray items)))) items);
    simpl world_of in Hch.
  - rewrite Hch. now destruct c.
  - unfold removeItem. rewrite children_set_storage, children_emit, Hch.
    now destruct c.
Qed.

Lemma listByColumn_loaded (c : column) (l : list task) :
  map (task_of c) (map loaded_element l) =
  map (fun r => {| id := task_id r; text := task_text r; col := c |}) l.
Proof. rewrite map_map. reflexivity. Qed.

(** [initKanban] on a stored array without [null]. *)
Lemma initKanban_array (tasks : list json) :
  ~ In JNull tasks ->
  initKanban (Some (Parses (JArray tasks))) =
  world_of (load_tasks (page (Some (Parses (JArray tasks)))) tasks).
Proof.
  intros H. unfold initKanban, loadTasksFromLocalStorage.
  cbn [kanbanTasks page truthy JSON_parse].
  now rewrite (load_tasks_normal tasks _ H).
Qed.

(** *** Claims about loading *)

(** C1, as stated, fails. The scenario of the specification: the slot
    holds a well-formed record and a record whose column is "archived".
    The load does not skip the second record: it warns and appends it to
    the [todo] container, so the board has two tasks. A record whose id
    and text are empty strings is accepted as well. *)
Lemma load_defaults_unknown_column_into_todo :
  let well_formed := task_object {| task_id := lit "a"; task_text := lit "Write spec";
                                    task_status := lit "inprogress" |} in
  let archived := task_object {| task_id := lit "b"; task_text := lit "Old";
                                 task_status := lit "archived" |} in
  let blank := task_object {| task_id := []; task_text := [];
                              task_status := lit "done" |} in
  let w := initKanban (Some (Parses (JArray [well_formed; archived]))) in
  listByColumn w todo = [{| id := lit "b"; text := lit "Old"; col := todo |}] /\
  listByColumn w inprogress =
    [{| id := lit "a"; text := lit "Write spec"; col := inprogress |}] /\
  List.length (board w) = 2 /\
  trace w = [Console (ContainerNotFound (lit "archived"))] /\
  board (initKanban (Some (Parses (JArray [blank])))) =
    [{| id := []; text := []; col := done |}].
Proof. vm_compute. repeat split. Qed.

(** C1, amended. For a stored array without [null], the load accepts a
    record exactly when its id, text and status are strings (empty or
    not). An accepted record becomes a task of the column its status
    names, and a task of [todo], with a warning, when its status names no
    column. Every other value is skipped with a warning and adds no task.
    The slot is left as it was. *)
Theorem load_places_string_records (tasks : list json) :
  ~ In JNull tasks ->
  let w := initKanban (Some (Parses (JArray tasks))) in
  (forall c, listByColumn w c =
             map (fun r => {| id := task_id r; text := task_text r; col := c |})
                 (filter (lands_in c) (records tasks))) /\
  trace w = flat_map warning_for tasks /\
  kanbanTasks w = Some (Parses (JArray tasks)).
Proof.
  intros H w. split; [|split].
  - intros c. unfold listByColumn, w.
    rewrite initKanban_children, listByColumn_loaded.
    unfold accepted. now rewrite (upto_null_id tasks H).
  - unfold w. rewrite (initKanban_array tasks H).
    destruct (load_tasks_effect tasks (page (Some (Parses (JArray tasks)))))
      as (_ & _ & Htr).
    rewrite Htr. simpl. now rewrite (upto_null_id tasks H).
  - unfold w. rewrite (initKanban_array tasks H).
    destruct (load_tasks_effect tasks (page (Some (Parses (JArray tasks)))))
      as (_ & Hst & _).
    now rewrite Hst.
Qed.

(** C1, amended, at a stored array of three values: a record of the
    [done] column, a record with an unknown column, and a number. *)
Lemma load_places_string_records_witness :
  let tasks :=
    [task_object {| task_id := lit "a"; task_text := lit "x"; task_status := lit "done" |};
     task_object {| task_id := lit "b"; task_text := lit "y"; task_status := lit "archived" |};
     JNumber (lit "5")] in
  ~ In JNull tasks /\
  trace (initKanban (Some (Parses (JArray tasks)))) =
    [Console (ContainerNotFound (lit "archived"));
     Console (InvalidTaskSkipped (JNumber (lit "5")))].
Proof.
  intros tasks.
  assert (H : ~ In JNull tasks).
  { intros [H|[H|[H|[]]]]; discriminate H. }
  split; [exact H|].
  exact (proj1 (proj2 (load_places_string_records tasks H))).
Defined.

Lemma records_task_objects (ts : list task) :
  records (upto_null (map task_object ts)) = ts.
Proof.
  induction ts as [|t ts IH]; [reflexivity|].
  cbn [map upto_null task_object is_null records].
  fold (task_object t). rewrite record_of_task_object. now f_equal.
Qed.

Lemma filter_map_const {A B : Type} (p : B -> bool) (f : A -> B) (b : bool)
      (l : list A) :
  (forall x, p (f x) = b) ->
  filter p (map f l) = if b then map f l else [].
Proof.
  intros H. induction l as [|x l IH]; simpl.
  - now destruct b.
  - rewrite H, IH. now destruct b.
Qed.

Lemma filter_collect_tasks (w : world) (c : column) :
  filter (lands_in c) (collect_tasks w) =
  map (fun el => {| task_id := el_id el; task_text := textContent el;
                    task_status := column_id c |}) (children w c).
Proof.
  unfold collect_tasks, columns. simpl flat_map.
  rewrite !filter_app.
  rewrite (filter_map_const (lands_in c) _ (column_eqb todo c))
    by reflexivity.
  rewrite (filter_map_const (lands_in c) _ (column_eqb inprogress c))
    by reflexivity.
  rewrite (filter_map_const (lands_in c) _ (column_eqb done c))
    by reflexivity.
  destruct c; simpl; now rewrite ?app_nil_r.
Qed.

Lemma kanbanTasks_save (w : world) :
  kanbanTasks (saveTasksToLocalStorage w) =
  Some (Parses (JArray (map task_object (collect_tasks w)))).
Proof. reflexivity. Qed.

Lemma reload_children (w : world) (c : column) :
  children (initKanban (kanbanTasks (saveTasksToLocalStorage w))) c =
  map (fun el => loaded_element
                   {| task_id := el_id el; task_text := textContent el;
                      task_status := column_id c |})
      (children w c).
Proof.
  rewrite kanbanTasks_save, initKanban_children. unfold accepted.
  rewrite records_task_objects, filter_collect_tasks, map_map.
  reflexivity.
Qed.

(** C2. Saving any state of the page and loading the slot on a fresh
    page gives back the same board: every column lists the same tasks
    (id, text and column), in the same order, none added and none lost. *)
Theorem save_then_load_round_trip (w : world) :
  let reloaded := initKanban (kanbanTasks (saveTasksToLocalStorage w)) in
  (forall c, listByColumn reloaded c = listByColumn w c) /\
  board reloaded = board w.
Proof.
  intros reloaded.
  assert (H : forall c, listByColumn reloaded c = listByColumn w c).
  { intros c. unfold listByColumn, reloaded.
    rewrite reload_children, map_map. reflexivity. }
  split; [exact H | now apply board_ext].
Qed.

(** On a state where the elements agree with their columns, the reload
    restores the elements themselves. *)
Lemma reload_restores_elements (w : world) (c : column) :
  consistent w ->
  children (initKanban (kanbanTasks (saveTasksToLocalStorage w))) c = children w c.
Proof.
  intros Hc. rewrite reload_children.
  rewrite <- (map_id (children w c)) at 2.
  apply map_ext_in. intros el Hin.
  destruct (Hc c el Hin) as [Hl Hd].
  unfold loaded_element, destination. simpl.
  rewrite taskContainers_column_id.
  destruct el as [i x d l]. simpl in *. now subst.
Qed.

(** C7, as stated, fails for one content: the empty string is not JSON,
    yet the load takes it for an absent slot and leaves it in place. *)
Lemma empty_string_slot_is_kept :
  JSON_parse EmptyString = None /\
  kanbanTasks (initKanban (Some EmptyString)) = Some EmptyString /\
  board (initKanban (Some EmptyString)) = [].
Proof. repeat split. Qed.

(** C7, amended. When the slot holds a non-empty string that is not JSON,
    or that is JSON for something other than an array, the load ends
    normally with one console error, the slot removed and an empty
    board. *)
Theorem load_corrupt_slot (s : stored) :
  truthy s = true ->
  (forall tasks, JSON_parse s <> Some (JArray tasks)) ->
  let w := initKanban (Some s) in
  board w = [] /\
  kanbanTasks w = None /\
  (trace w = [Console FailedToParse] \/ trace w = [Console NotAnArray]).
Proof.
  intros Ht Hna w. unfold w.
  destruct s as [| |v]; [discriminate Ht| |].
  - repeat split. now left.
  - destruct v; try (repeat split; now right).
    exfalso. now apply (Hna items).
Qed.

(** C7, amended, at a slot holding the number 5. *)
Lemma load_corrupt_slot_witness :
  truthy (Parses (JNumber (lit "5"))) = true /\
  (forall tasks, JSON_parse (Parses (JNumber (lit "5"))) <> Some (JArray tasks)) /\
  board (initKanban (Some (Parses (JNumber (lit "5"))))) = [] /\
  kanbanTasks (initKanban (Some (Parses (JNumber (lit "5"))))) = None.
Proof.
  assert (Ht : truthy (Parses (JNumber (lit "5"))) = true) by reflexivity.
  assert (Hna : forall tasks,
             JSON_parse (Parses (JNumber (lit "5"))) <> Some (JArray tasks))
    by (intros tasks; discriminate).
  split; [exact Ht|]. split; [exact Hna|].
  destruct (load_corrupt_slot (Parses (JNumber (lit "5"))) Ht Hna) as (Hb & Hk & _).
  split; [exact Hb | exact Hk].
Defined.

(** *** Finding a task by its id *)

Lemma task_ids_elements (w : world) : task_ids w = map el_id (elements w).
Proof.
  unfold task_ids, board, columns, elements, listByColumn. simpl.
  rewrite app_nil_r, !map_app, !map_map. reflexivity.
Qed.

Lemma in_listByColumn_task_ids (w : world) (c : column) (i : jsstring) :
  In i (map id (listByColumn w c)) -> In i (task_ids w).
Proof.
  unfold task_ids, board, columns. simpl. rewrite app_nil_r, !map_app, !in_app_iff.
  destruct c; tauto.
Qed.

Lemma split_at_id_some (i : jsstring) (l : list taskElement) :
  forall b e a,
    split_at_id i l = Some (b, e, a) ->
    l = b ++ e :: a /\ el_id e = i /\ ~ In i (map el_id b).
Proof.
  induction l as [|x l IH]; intros b e a H; simpl in H; [discriminate|].
  destruct (eqb (el_id x) i) eqn:E.
  - injection H as <- <- <-. apply eqb_eq in E. simpl. tauto.
  - destruct (split_at_id i l) as [[[b' e'] a']|]; [|discriminate].
    injection H as <- <- <-.
    destruct (IH b' e' a' eq_refl) as (-> & He & Hb).
    apply eqb_neq in E. simpl. repeat split; trivial.
    intros [H|H]; [now apply E | now apply Hb].
Qed.

Lemma split_at_id_none (i : jsstring) (l : list taskElement) :
  split_at_id i l = None <-> ~ In i (map el_id l).
Proof.
  induction l as [|x l IH]; simpl.
  - tauto.
  - destruct (eqb (el_id x) i) eqn:E.
    + apply eqb_eq in E. split; [discriminate | intros H; exfalso; apply H; now left].
    + apply eqb_neq in E.
      destruct (split_at_id i l) as [[[b e] a]|].
      * split; [discriminate|]. intros H. exfalso.
        assert (Hn : ~ In i (map el_id l)) by tauto.
        apply IH in Hn. discriminate Hn.
      * split; [|reflexivity]. intros _ [H|H]; [now apply E|].
        now apply (proj1 IH).
Qed.

Lemma find_in_some (w : world) (c : column) (i : jsstring) (f : found) :
  find_in w c i = Some f ->
  in_column f = c /\
  children w c = before f ++ element f :: after f /\
  el_id (element f) = i /\
  ~ In i (map el_id (before f)).
Proof.
  unfold find_in. destruct (split_at_id i (children w c)) as [[[b e] a]|] eqn:E;
    [|discriminate].
  intros [= <-]. simpl. apply split_at_id_some in E. tauto.
Qed.

Lemma find_in_none (w : world) (c : column) (i : jsstring) :
  find_in w c i = None <-> ~ In i (map el_id (children w c)).
Proof.
  unfold find_in. rewrite <- split_at_id_none.
  destruct (split_at_id i (children w c)) as [[[b e] a]|]; split; congruence.
Qed.

Lemma is_page_id_nil : is_page_id [] = false.
Proof. reflexivity. Qed.

(** How [getElementById] goes by the id it is given. *)
Lemma getElementById_page (w : world) (i : jsstring) :
  is_page_id i = true -> getElementById w i = Some PageNode.
Proof.
  intros H. unfold getElementById. destruct i as [|x i']; [discriminate H|].
  now rewrite H.
Qed.

Lemma getElementById_not_page (w : world) (i : jsstring) :
  i <> [] -> is_page_id i = false ->
  getElementById w i =
  match find_task w i with Some f => Some (TaskNode f) | None => None end.
Proof.
  intros Hi H. unfold getElementById. destruct i as [|x i']; [contradiction|].
  now rewrite H.
Qed.

Lemma getElementById_task (w : world) (i : jsstring) (f : found) :
  getElementById w i = Some (TaskNode f) ->
  i <> [] /\ is_page_id i = false /\ find_task w i = Some f.
Proof.
  unfold getElementById. destruct i as [|x i']; [discriminate|].
  destruct (is_page_id (x :: i')); [discriminate|].
  destruct (find_task w (x :: i')) as [f'|]; [|discriminate].
  intros [= <-]. repeat split. discriminate.
Qed.

Lemma getElementById_is_page (w : world) (i : jsstring) :
  getElementById w i = Some PageNode -> i <> [] /\ is_page_id i = true.
Proof.
  unfold getElementById. destruct i as [|x i']; [discriminate|].
  destruct (is_page_id (x :: i')); [split; [discriminate | reflexivity]|].
  destruct (find_task w (x :: i')); discriminate.
Qed.

(** The task [find_task] answers is in the first column that has the
    id. *)
Lemma find_task_first_column (w : world) (i : jsstring) (f : found) :
  find_task w i = Some f ->
  forall c, In c (columns_before (in_column f)) ->
            ~ In i (map el_id (children w c)).
Proof.
  unfold find_task. intros H c Hc.
  destruct (find_in w todo i) as [f1|] eqn:E1.
  { injection H as <-. apply find_in_some in E1 as (Hcol & _).
    rewrite Hcol in Hc. destruct Hc. }
  apply find_in_none in E1.
  destruct (find_in w inprogress i) as [f2|] eqn:E2.
  { injection H as <-. apply find_in_some in E2 as (Hcol & _).
    rewrite Hcol in Hc. destruct Hc as [<-|[]]. exact E1. }
  apply find_in_none in E2.
  apply find_in_some in H as (Hcol & _). rewrite Hcol in Hc.
  destruct Hc as [<-|[<-|[]]]; assumption.
Qed.

(** What [getElementById] answers for a task: the place of the first
    element with that id, in the first column that has one. *)
Lemma getElementById_some (w : world) (i : jsstring) (f : found) :
  getElementById w i = Some (TaskNode f) ->
  i <> [] /\
  children w (in_column f) = before f ++ element f :: after f /\
  el_id (element f) = i /\
  ~ In i (map el_id (before f)) /\
  exists pre post,
    elements w = pre ++ element f :: post /\
    ~ In i (map el_id pre) /\
    elements (set_children w (in_column f) (before f ++ after f)) = pre ++ post.
Proof.
  intros H. apply getElementById_task in H as (Hi & _ & H).
  split; [exact Hi|]. clear Hi. unfold find_task in H.
  destruct (find_in w todo i) as [f1|] eqn:E1.
  { injection H as <-. apply find_in_some in E1 as (Hc & Hch & Hid & Hb).
    rewrite Hc. repeat split; trivial.
    exists (before f1), (after f1 ++ inprogressTasks w ++ doneTasks w).
    unfold elements. simpl in *. rewrite Hch, <- !app_assoc. auto. }
  apply find_in_none in E1.
  destruct (find_in w inprogress i) as [f2|] eqn:E2.
  { injection H as <-. apply find_in_some in E2 as (Hc & Hch & Hid & Hb).
    rewrite Hc. repeat split; trivial.
    exists (todoTasks w ++ before f2), (after f2 ++ doneTasks w).
    unfold elements. simpl in *. rewrite Hch, <- !app_assoc.
    repeat split; trivial.
    rewrite map_app, in_app_iff. tauto. }
  apply find_in_none in E2.
  apply find_in_some in H as (Hc & Hch & Hid & Hb).
  rewrite Hc. repeat split; trivial.
  exists (todoTasks w ++ inprogressTasks w ++ before f), (after f).
  unfold elements. simpl in *. rewrite Hch, <- !app_assoc.
  repeat split; trivial.
  rewrite !map_app, !in_app_iff. tauto.
Qed.

Lemma find_task_none (w : world) (i : jsstring) :
  find_task w i = None <-> ~ In i (task_ids w).
Proof.
  rewrite task_ids_elements. unfold find_task, elements.
  rewrite !map_app, !in_app_iff.
  destruct (find_in w todo i) as [f1|] eqn:E1.
  { apply find_in_some in E1 as (_ & Hch & Hid & _).
    split; [discriminate|]. intros H. exfalso. apply H.
    left. simpl in Hch. rewrite Hch, map_app, in_app_iff. right. now left. }
  apply find_in_none in E1.
  destruct (find_in w inprogress i) as [f2|] eqn:E2.
  { apply find_in_some in E2 as (_ & Hch & Hid & _).
    split; [discriminate|]. intros H. exfalso. apply H.
    right; left. simpl in Hch. rewrite Hch, map_app, in_app_iff. right. now left. }
  apply find_in_none in E2.
  rewrite find_in_none. simpl in *. tauto.
Qed.

Lemma getElementById_none (w : world) (i : jsstring) :
  getElementById w i = None <->
  i = [] \/ (is_page_id i = false /\ ~ In i (task_ids w)).
Proof.
  rewrite <- find_task_none. unfold getElementById.
  destruct i as [|x i']; [intuition|].
  destruct (is_page_id (x :: i')).
  - split; [discriminate|]. intros [H|[H _]]; discriminate H.
  - destruct (find_task w (x :: i')) as [f|].
    + split; [discriminate|]. intros [H|[_ H]]; discriminate H.
    + split; [now right | reflexivity].
Qed.

Lemma getElementById_found (w : world) (i : jsstring) :
  i <> [] -> is_page_id i = false -> In i (task_ids w) ->
  exists f, getElementById w i = Some (TaskNode f).
Proof.
  intros Hi Hp Hin. rewrite (getElementById_not_page w i Hi Hp).
  destruct (find_task w i) as [f|] eqn:E; [now exists f|].
  apply find_task_none in E. contradiction.
Qed.

(** The ids [generateId] hands out begin with task and a dash, which no
    id of the page does. *)
Lemma generateId_not_page (now : N) (random : jsstring) :
  is_page_id (generateId now random) = false.
Proof. reflexivity. Qed.

(** *** What the listeners do *)

Lemma createTaskElement_task_object (t : task) :
  createTaskElement (task_object t) =
  Some {| el_id := task_id t; textContent := task_text t;
          task_text_done := false; lastColumn := None |}.
Proof. now destruct t. Qed.

Lemma collect_tasks_ext (w w' : world) :
  (forall c, children w' c = children w c) -> collect_tasks w' = collect_tasks w.
Proof. intros H. unfold collect_tasks, columns. cbn [flat_map]. now rewrite !H. Qed.

Lemma collect_tasks_save (w : world) :
  collect_tasks (saveTasksToLocalStorage w) = collect_tasks w.
Proof. reflexivity. Qed.

Lemma trace_save (w : world) :
  trace (saveTasksToLocalStorage w) = trace w ++ [Saved (collect_tasks w)].
Proof. reflexivity. Qed.

Lemma addTask_blank (w : world) (value : jsstring) (now : N) (random : jsstring) :
  trim value = [] -> addTask w value now random = emit w EmptyInputHint.
Proof. intros H. unfold addTask. now rewrite H. Qed.

Lemma addTask_appends (w : world) (value : jsstring) (now : N) (random : jsstring) :
  trim value <> [] ->
  addTask w value now random =
  saveTasksToLocalStorage
    (emit (appendChild w todo
             {| el_id := generateId now random; textContent := trim value;
                task_text_done := false; lastColumn := Some todo |})
          (Flash todo)).
Proof.
  intros H. unfold addTask. cbv zeta.
  destruct (eqb (trim value) []) eqn:E.
  - apply eqb_eq in E. contradiction.
  - now rewrite createTaskElement_task_object.
Qed.

Lemma deleteTask_found (w : world) (i : jsstring) (f : found) :
  getElementById w i = Some (TaskNode f) ->
  deleteTask w i =
  saveTasksToLocalStorage (set_children w (in_column f) (before f ++ after f)).
Proof. intros H. unfold deleteTask. now rewrite H. Qed.

Lemma deleteTask_not_found (w : world) (i : jsstring) :
  getElementById w i = None ->
  deleteTask w i = emit w (Console (DeleteNotFound i)).
Proof. intros H. unfold deleteTask. now rewrite H. Qed.

Lemma deleteTask_page (w : world) (i : jsstring) :
  getElementById w i = Some PageNode ->
  deleteTask w i = emit w (PageElementHandled i).
Proof. intros H. unfold deleteTask. now rewrite H. Qed.

Lemma drop_not_found (w : world) (target : column) (i : jsstring) :
  getElementById w i = None ->
  drop w target i = emit w (Console (DropNotFound i)).
Proof. intros H. unfold drop. now rewrite H. Qed.

Lemma drop_page (w : world) (target : column) (i : jsstring) :
  getElementById w i = Some PageNode ->
  drop w target i = emit w (PageElementHandled i).
Proof. intros H. unfold drop. now rewrite H. Qed.

Lemma drop_effect (w : world) (target : column) (i : jsstring) (f : found) :
  getElementById w i = Some (TaskNode f) ->
  (forall c,
     children (drop w target i) c =
     if column_eqb (in_column f) target
     then (if column_eqb c target
           then before f ++ dropped (element f) target :: after f
           else children w c)
     else (if column_eqb c (in_column f) then before f ++ after f
           else if column_eqb c target
                then children w target ++ [dropped (element f) target]
                else children w c)) /\
  trace (drop w target i) =
    trace w ++ Flash target ::
    (if newly_done (element f) target then [Confetti] else []) ++
    [Saved (collect_tasks (drop w target i))] /\
  kanbanTasks (drop w target i) =
    Some (JSON_stringify (JArray (map task_object (collect_tasks (drop w target i))))).
Proof.
  intros H. unfold drop. rewrite H. cbv zeta.
  fold (dropped (element f) target). fold (newly_done (element f) target).
  split; [|split].
  - intros c. rewrite children_save.
    destruct (newly_done (element f) target);
      destruct (in_column f), target, c; reflexivity.
  - rewrite trace_save, collect_tasks_save.
    destruct (newly_done (element f) target);
      destruct (column_eqb (in_column f) target); simpl;
      rewrite ?trace_set_children, ?trace_appendChild, ?trace_set_children,
        <- ?app_assoc; reflexivity.
  - reflexivity.
Qed.

(** *** Elements agree with their columns while the listeners handle tasks *)

Lemma consistent_ext (w w' : world) :
  (forall c, children w' c = children w c) -> consistent w -> consistent w'.
Proof. intros H Hc c el Hin. rewrite H in Hin. now apply Hc. Qed.

Lemma consistent_init (slot : option stored) : consistent (initKanban slot).
Proof.
  intros c el Hin. rewrite initKanban_children in Hin.
  apply in_map_iff in Hin as (r & <- & Hr).
  apply filter_In in Hr as [_ Hr]. unfold lands_in in Hr.
  apply column_eqb_eq in Hr. unfold loaded_element. simpl. now rewrite Hr.
Qed.

Lemma consistent_addTask (w : world) (value : jsstring) (now : N) (random : jsstring) :
  consistent w -> consistent (addTask w value now random).
Proof.
  intros Hc. destruct (eqb (trim value) []) eqn:E.
  - apply eqb_eq in E. rewrite (addTask_blank _ _ _ _ E).
    apply (consistent_ext w); [intros c; apply children_emit | exact Hc].
  - apply eqb_neq in E. rewrite (addTask_appends _ _ _ _ E).
    intros c el Hin. autorewrite with frame in Hin.
    destruct (column_eqb todo c) eqn:Ec; [|now apply Hc].
    apply column_eqb_eq in Ec. subst c.
    apply in_app_iff in Hin as [Hin|[<-|[]]]; [now apply Hc|].
    now split.
Qed.

Lemma consistent_deleteTask (w : world) (i : jsstring) :
  consistent w -> consistent (deleteTask w i).
Proof.
  intros Hc. destruct (getElementById w i) as [[f|]|] eqn:E.
  - rewrite (deleteTask_found _ _ _ E).
    apply getElementById_some in E as (_ & Hch & _).
    intros c el Hin. autorewrite with frame in Hin.
    destruct (column_eqb (in_column f) c) eqn:Ec; [|now apply Hc].
    apply column_eqb_eq in Ec. subst c. apply Hc. rewrite Hch.
    apply in_app_iff in Hin. apply in_app_iff. simpl. tauto.
  - rewrite (deleteTask_page _ _ E).
    apply (consistent_ext w); [intros c; apply children_emit | exact Hc].
  - rewrite (deleteTask_not_found _ _ E).
    apply (consistent_ext w); [intros c; apply children_emit | exact Hc].
Qed.

Lemma dropped_consistent (el : taskElement) (target : column) :
  lastColumn (dropped el target) = Some target /\
  task_text_done (dropped el target) = column_eqb target done.
Proof. now split. Qed.

Lemma consistent_drop (w : world) (target : column) (i : jsstring) :
  consistent w -> consistent (drop w target i).
Proof.
  intros Hc. destruct (getElementById w i) as [[f|]|] eqn:E.
  2:{ rewrite (drop_page _ _ _ E).
      apply (consistent_ext w); [intros c; apply children_emit | exact Hc]. }
  - destruct (drop_effect w target i f E) as (Hd & _ & _).
    apply getElementById_some in E as (_ & Hch & _).
    intros c el Hin. rewrite Hd in Hin.
    destruct (column_eqb (in_column f) target) eqn:E1.
    + apply column_eqb_eq in E1.
      destruct (column_eqb c target) eqn:E2; [|now apply Hc].
      apply column_eqb_eq in E2. subst c.
      apply in_app_iff in Hin as [Hin|[<-|Hin]].
      * apply Hc. rewrite <- E1, Hch. apply in_app_iff. now left.
      * apply dropped_consistent.
      * apply Hc. rewrite <- E1, Hch. apply in_app_iff. right. now right.
    + destruct (column_eqb c (in_column f)) eqn:E2.
      * apply column_eqb_eq in E2. subst c. apply Hc. rewrite Hch.
        apply in_app_iff in Hin. apply in_app_iff. simpl. tauto.
      * destruct (column_eqb c target) eqn:E3; [|now apply Hc].
        apply column_eqb_eq in E3. subst c.
        apply in_app_iff in Hin as [Hin|[<-|[]]]; [now apply Hc|].
        apply dropped_consistent.
  - rewrite (drop_not_found _ _ _ E).
    apply (consistent_ext w); [intros c; apply children_emit | exact Hc].
Qed.

Lemma consistent_deleteBtn (w : world) (c : column) (n : nat) :
  consistent w -> consistent (deleteBtn_onclick w c n).
Proof.
  intros Hc. unfold deleteBtn_onclick.
  destruct (nth_error (children w c) n) as [el|]; [|exact Hc].
  apply (consistent_ext (deleteTask w (el_id el)));
    [intros c'; apply children_emit | now apply consistent_deleteTask].
Qed.

Lemma task_run_consistent (w : world) : task_run w -> consistent w.
Proof.
  induction 1;
    auto using consistent_init, consistent_addTask, consistent_drop,
               consistent_deleteTask, consistent_deleteBtn.
Qed.

Lemma dropped_same_column (w : world) (c : column) (el : taskElement) :
  consistent w -> In el (children w c) -> dropped el c = el.
Proof.
  intros Hc Hin. destruct (Hc c el Hin) as [Hl Hd].
  destruct el as [i x d l]. simpl in *. subst. reflexivity.
Qed.

Lemma newly_done_consistent (w : world) (c target : column) (el : taskElement) :
  consistent w -> In el (children w c) ->
  newly_done el target = column_eqb target done && negb (column_eqb c done).
Proof.
  intros Hc Hin. destruct (Hc c el Hin) as [Hl _].
  unfold newly_done. rewrite Hl. now destruct c.
Qed.

(** *** Claims about adding and moving *)

(** C4. When the trimmed input is empty, as for the empty string and for
    three spaces, [addTask] only shows the empty-input hint: the document
    and the slot are as before, no snapshot is written, and the board has
    the same tasks, hence as many. *)
Theorem addTask_blank_rejected (w : world) (value : jsstring) (now : N)
        (random : jsstring) :
  trim value = [] ->
  let w' := addTask w value now random in
  fired w w' = [EmptyInputHint] /\
  existsb is_Saved (fired w w') = false /\
  (forall c, children w' c = children w c) /\
  kanbanTasks w' = kanbanTasks w /\
  board w' = board w /\
  List.length (board w') = List.length (board w).
Proof.
  intros H w'. unfold w'. rewrite (addTask_blank _ _ _ _ H).
  assert (Hch : forall c, children (emit w EmptyInputHint) c = children w c)
    by (intros c; apply children_emit).
  assert (Hb : board (emit w EmptyInputHint) = board w).
  { apply board_ext. intros c. now apply listByColumn_ext. }
  assert (Hf : fired w (emit w EmptyInputHint) = [EmptyInputHint])
    by now apply fired_app.
  split; [exact Hf|]. split; [now rewrite Hf|]. split; [exact Hch|].
  split; [reflexivity|]. split; [exact Hb | now rewrite Hb].
Qed.

(** C4 at the empty input and at three spaces, on a board that has one
    task. *)
Lemma addTask_blank_rejected_witness :
  let w := addTask (page None) (lit "Write spec") 1000 (lit "k3x9") in
  trim (lit "   ") = [] /\ trim [] = [] /\
  board (addTask w (lit "   ") 2000 (lit "zzz")) = board w /\
  board (addTask w [] 2000 (lit "zzz")) = board w.
Proof.
  intros w.
  assert (H3 : trim (lit "   ") = []) by reflexivity.
  assert (H0 : trim [] = []) by reflexivity.
  split; [exact H3|]. split; [exact H0|]. split.
  - exact (proj1 (proj2 (proj2 (proj2 (proj2
             (addTask_blank_rejected w (lit "   ") 2000 (lit "zzz") H3)))))).
  - exact (proj1 (proj2 (proj2 (proj2 (proj2
             (addTask_blank_rejected w [] 2000 (lit "zzz") H0)))))).
Defined.

Lemma generateId_inj (now now' : N) (random random' : jsstring) :
  generateId now' random' = generateId now random ->
  now' = now /\ random' = random.
Proof.
  unfold generateId. intros H. apply app_inv_head in H.
  now apply string_of_N_dash_inj.
Qed.

(** C5 fails on the code, which here breaks its own documentation: the
    comment above [generateId] promises a unique id, but the function
    builds the id from the clock and a random suffix and never looks at
    the board. When both repeat, as in two calls within one millisecond
    that draw the same suffix, the second task gets the id of the
    first. *)
Lemma addTask_can_repeat_an_id :
  let w1 := addTask (page None) (lit "first") 1000 (lit "k3x9") in
  let w2 := addTask w1 (lit "second") 1000 (lit "k3x9") in
  trim (lit "second") <> [] /\
  In (generateId 1000 (lit "k3x9")) (task_ids w1) /\
  listByColumn w2 todo =
    [{| id := lit "task-1000-k3x9"; text := lit "first"; col := todo |};
     {| id := lit "task-1000-k3x9"; text := lit "second"; col := todo |}].
Proof.
  split; [discriminate|]. split; [now left | reflexivity].
Qed.

(** X30. When the trimmed input [t] is not empty, [addTask] appends to
    [todo] a task with text [t] and the id task-<clock>-<suffix>, leaves
    the other columns alone, flashes [todo] and writes a snapshot of the
    new board. The id is the one of another call of [generateId] only if
    that call saw the same clock and drew the same suffix. *)
Theorem addTask_nonblank (w : world) (value : jsstring) (now : N)
        (random : jsstring) :
  trim value <> [] ->
  let w' := addTask w value now random in
  let t := {| id := generateId now random; text := trim value; col := todo |} in
  listByColumn w' todo = listByColumn w todo ++ [t] /\
  In t (listByColumn w' todo) /\
  listByColumn w' inprogress = listByColumn w inprogress /\
  listByColumn w' done = listByColumn w done /\
  fired w w' = [Flash todo; Saved (collect_tasks w')] /\
  kanbanTasks w' =
    Some (JSON_stringify (JArray (map task_object (collect_tasks w')))) /\
  (forall now' random',
     generateId now' random' = generateId now random ->
     now' = now /\ random' = random).
Proof.
  intros H w' t. unfold w'. rewrite (addTask_appends _ _ _ _ H).
  assert (Htodo : listByColumn
                    (saveTasksToLocalStorage
                       (emit (appendChild w todo
                                {| el_id := generateId now random;
                                   textContent := trim value;
                                   task_text_done := false;
                                   lastColumn := Some todo |})
                             (Flash todo))) todo
                  = listByColumn w todo ++ [t]).
  { unfold listByColumn. rewrite children_save, children_emit, children_appendChild.
    simpl column_eqb. cbv iota. now rewrite map_app. }
  split; [exact Htodo|]. split.
  { rewrite Htodo. apply in_app_iff. right. now left. }
  split; [reflexivity|]. split; [reflexivity|]. split.
  { apply fired_app. rewrite trace_save, collect_tasks_save.
    cbn [emit trace]. rewrite trace_appendChild, <- app_assoc. reflexivity. }
  split; [reflexivity|].
  intros now' random'. apply generateId_inj.
Qed.

(** X30 at the input "  Write spec " on the empty board. *)
Lemma addTask_nonblank_witness :
  trim (lit "  Write spec ") <> [] /\
  listByColumn (addTask (page None) (lit "  Write spec ") 1000 (lit "k3x9")) todo =
    [{| id := lit "task-1000-k3x9"; text := lit "Write spec"; col := todo |}].
Proof.
  assert (H : trim (lit "  Write spec ") <> []) by discriminate.
  split; [exact H|].
  exact (proj1 (addTask_nonblank (page None) (lit "  Write spec ") 1000 (lit "k3x9") H)).
Defined.

Lemma in_children_found (w : world) (i : jsstring) (f : found) :
  getElementById w i = Some (TaskNode f) -> In (element f) (children w (in_column f)).
Proof.
  intros H. apply getElementById_some in H as (_ & Hch & _).
  rewrite Hch. apply in_app_iff. right. now left.
Qed.

(** C3, as stated, fails on the snapshot. A task is dropped on the column
    it is in: the listener writes a snapshot all the same. Here the slot
    held a second, unusable entry beside the task, so the write is
    visible in the slot as well. *)
Lemma same_column_drop_saves :
  let a := {| task_id := lit "a"; task_text := lit "x"; task_status := lit "todo" |} in
  let w := initKanban (Some (Parses (JArray [task_object a; JNumber (lit "5")]))) in
  let w' := drop w todo (lit "a") in
  column_of w (lit "a") = Some todo /\
  fired w w' = [Flash todo; Saved [a]] /\
  kanbanTasks w = Some (Parses (JArray [task_object a; JNumber (lit "5")])) /\
  kanbanTasks w' = Some (Parses (JArray [task_object a])).
Proof. repeat split. Qed.

(** C3, amended. On every state the page reaches while its listeners
    are handed ids of tasks only, dropping a task whose id is not one of
    the page's own on the column it is in leaves every container with
    the very same elements, hence the same board, and fires no confetti;
    the listener flashes the column and writes a snapshot of the
    unchanged board. No result tells this drop from a move. *)
Theorem drop_on_own_column (w : world) (i : jsstring) (c : column) :
  task_run w ->
  is_page_id i = false ->
  column_of w i = Some c ->
  let w' := drop w c i in
  (forall c', children w' c' = children w c') /\
  board w' = board w /\
  fired w w' = [Flash c; Saved (collect_tasks w)] /\
  kanbanTasks w' =
    Some (JSON_stringify (JArray (map task_object (collect_tasks w)))).
Proof.
  intros Hr _ Hcol w'. apply task_run_consistent in Hr.
  unfold column_of in Hcol.
  destruct (getElementById w i) as [[f|]|] eqn:Hf; try discriminate Hcol.
  injection Hcol as <-.
  destruct (drop_effect w (in_column f) i f Hf) as (Hd & Htr & Hst).
  fold w' in Hd, Htr, Hst.
  pose proof (in_children_found w i f Hf) as Hin.
  assert (Hch : forall c, children w' c = children w c).
  { intros c. rewrite Hd, column_eqb_refl.
    destruct (column_eqb c (in_column f)) eqn:E; [|reflexivity].
    apply column_eqb_eq in E. subst c.
    rewrite (dropped_same_column w _ _ Hr Hin).
    symmetry. now apply getElementById_some in Hf as (_ & Hch & _). }
  assert (Hco : collect_tasks w' = collect_tasks w)
    by now apply collect_tasks_ext.
  split; [exact Hch|]. split.
  { apply board_ext. intros c. now apply listByColumn_ext. }
  split.
  { apply fired_app. rewrite Htr, Hco.
    rewrite (newly_done_consistent w _ _ _ Hr Hin).
    now destruct (in_column f). }
  now rewrite Hst, Hco.
Qed.

(** C3, amended, at a board with one task in [todo]. *)
Lemma drop_on_own_column_witness :
  let w := addTask (page None) (lit "Write spec") 1000 (lit "k3x9") in
  task_run w /\
  is_page_id (lit "task-1000-k3x9") = false /\
  column_of w (lit "task-1000-k3x9") = Some todo /\
  board (drop w todo (lit "task-1000-k3x9")) = board w /\
  fired w (drop w todo (lit "task-1000-k3x9")) = [Flash todo; Saved (collect_tasks w)].
Proof.
  intros w.
  assert (Hr : task_run w).
  { apply run_addTask. exact (run_init None). }
  assert (Hp : is_page_id (lit "task-1000-k3x9") = false) by reflexivity.
  assert (Hc : column_of w (lit "task-1000-k3x9") = Some todo) by reflexivity.
  split; [exact Hr|]. split; [exact Hp|]. split; [exact Hc|].
  destruct (drop_on_own_column w (lit "task-1000-k3x9") todo Hr Hp Hc)
    as (_ & Hb & Hf & _).
  split; [exact Hb | exact Hf].
Defined.

Lemma column_eqb_sym (a b : column) : column_eqb a b = column_eqb b a.
Proof. now destruct a, b. Qed.

Lemma column_eqb_neq_iff (a b : column) : a <> b <-> column_eqb a b = false.
Proof. destruct a, b; simpl; split; congruence. Qed.

(** A task that is dropped is then listed in the target column. *)
Lemma drop_lists_in_target (w : world) (target : column) (i : jsstring) (f : found) :
  getElementById w i = Some (TaskNode f) ->
  In (task_of target (element f)) (listByColumn (drop w target i) target).
Proof.
  intros Hf. destruct (drop_effect w target i f Hf) as (Hd & _ & _).
  unfold listByColumn. rewrite Hd, column_eqb_refl.
  change (task_of target (element f))
    with (task_of target (dropped (element f) target)).
  apply in_map.
  destruct (column_eqb (in_column f) target) eqn:E.
  - apply in_app_iff. right. now left.
  - rewrite column_eqb_sym, E. apply in_app_iff. right. now left.
Qed.


(** X29. While the listeners of the page are handed ids of tasks only, a
    drop whose text is not an id of the page's own fires the confetti
    exactly when it finds the task in a column other than [done] and the
    target is [done], and then it fires it once. A drop that finds no
    task, a drop on a column other than [done], and a drop on [done] of
    a task that is in [done] fire none. The task a drop finds is listed
    in the target column afterwards. *)
Theorem confetti_iff_newly_done (w : world) (target : column) (i : jsstring) :
  task_run w ->
  is_page_id i = false ->
  (In Confetti (fired w (drop w target i)) <->
   exists c, column_of w i = Some c /\ c <> done /\ target = done) /\
  List.length (filter is_Confetti (fired w (drop w target i))) =
    match column_of w i with
    | Some c => if column_eqb target done && negb (column_eqb c done) then 1 else 0
    | None => 0
    end /\
  (forall f, getElementById w i = Some (TaskNode f) ->
     In (task_of target (element f)) (listByColumn (drop w target i) target)).
Proof.
  intros Hr Hp.
  assert (Hlist : forall f, getElementById w i = Some (TaskNode f) ->
            In (task_of target (element f)) (listByColumn (drop w target i) target))
    by (intros f; apply drop_lists_in_target).
  cut ((In Confetti (fired w (drop w target i)) <->
        exists c, column_of w i = Some c /\ c <> done /\ target = done) /\
       List.length (filter is_Confetti (fired w (drop w target i))) =
         match column_of w i with
         | Some c =>
             if column_eqb target done && negb (column_eqb c done) then 1 else 0
         | None => 0
         end); [tauto|].
  clear Hlist.
  apply task_run_consistent in Hr. unfold column_of.
  destruct (getElementById w i) as [[f|]|] eqn:Hf.
  - destruct (drop_effect w target i f Hf) as (_ & Htr & _).
    pose proof (in_children_found w i f Hf) as Hin.
    rewrite (newly_done_consistent w _ _ _ Hr Hin) in Htr.
    rewrite (fired_app _ _ _ Htr).
    destruct target, (in_column f); simpl; split; try reflexivity;
      try (split;
           [ intros [H|[H|H]]; try discriminate H; try destruct H
           | intros (c & [= <-] & Hc & Ht); try discriminate Ht; now elim Hc ]);
      try (split;
           [ intros _; eexists; repeat split; discriminate
           | intros _; right; now left ]).
  - apply getElementById_is_page in Hf as [_ Hf]. congruence.
  - rewrite (drop_not_found _ _ _ Hf). rewrite (fired_app _ _ [Console (DropNotFound i)]) by reflexivity.
    simpl. split; [|reflexivity]. split.
    + intros [H|[]]. discriminate H.
    + intros (c & H & _). discriminate H.
Qed.

(** X29 on the scenario of the specification: a task added to [todo] is
    dropped on [done], which fires the confetti once, and dropped on
    [done] again, which fires none. *)
Lemma confetti_iff_newly_done_witness :
  let w := addTask (page None) (lit "Write spec") 1000 (lit "k3x9") in
  let w1 := drop w done (lit "task-1000-k3x9") in
  let w2 := drop w1 done (lit "task-1000-k3x9") in
  task_run w /\ task_run w1 /\ is_page_id (lit "task-1000-k3x9") = false /\
  List.length (filter is_Confetti (fired w w1)) = 1 /\
  List.length (filter is_Confetti (fired w1 w2)) = 0.
Proof.
  intros w w1 w2.
  assert (Hp : is_page_id (lit "task-1000-k3x9") = false) by reflexivity.
  assert (Hr : task_run w).
  { apply run_addTask. exact (run_init None). }
  assert (Hr1 : task_run w1) by (apply run_drop; [exact Hr | exact Hp]).
  split; [exact Hr|]. split; [exact Hr1|]. split; [exact Hp|]. split.
  - exact (proj1 (proj2 (confetti_iff_newly_done w done (lit "task-1000-k3x9") Hr Hp))).
  - exact (proj1 (proj2 (confetti_iff_newly_done w1 done (lit "task-1000-k3x9") Hr1 Hp))).
Defined.

(** The scenario of the specification, run on the page: add "Write
    spec", move it to [done] (confetti), move it to [done] again (none),
    delete it. *)
Example scenario_write_spec :
  let i := lit "task-1000-k3x9" in
  let w1 := addTask (page None) (lit "Write spec") 1000 (lit "k3x9") in
  let w2 := drop w1 done i in
  let w3 := drop w2 done i in
  let w4 := deleteTask w3 i in
  board w1 = [{| id := i; text := lit "Write spec"; col := todo |}] /\
  board w2 = [{| id := i; text := lit "Write spec"; col := done |}] /\
  filter is_Confetti (fired w1 w2) = [Confetti] /\
  board w3 = board w2 /\
  filter is_Confetti (fired w2 w3) = [] /\
  listByColumn w4 done = [] /\
  kanbanTasks w4 = Some (JSON_stringify (JArray [])).
Proof. repeat split. Qed.

(** *** Counting ids *)

Lemma count_task_ids (w : world) (x : jsstring) :
  count_occ JS.eq_dec (task_ids w) x =
  count_in w todo x + count_in w inprogress x + count_in w done x.
Proof.
  rewrite task_ids_elements. unfold elements, count_in.
  rewrite !map_app, !count_occ_app. simpl. lia.
Qed.

Lemma NoDup_of_counts (w w' : world) :
  (forall x, count_occ JS.eq_dec (task_ids w') x <= count_occ JS.eq_dec (task_ids w) x) ->
  NoDup (task_ids w) -> NoDup (task_ids w').
Proof.
  intros H Hn. apply (NoDup_count_occ JS.eq_dec). intros x.
  apply (NoDup_count_occ JS.eq_dec) with (x := x) in Hn.
  specialize (H x). lia.
Qed.

Lemma task_ids_ext (w w' : world) :
  (forall c, children w' c = children w c) -> task_ids w' = task_ids w.
Proof.
  intros H. unfold task_ids. f_equal. apply board_ext.
  intros c. now apply listByColumn_ext.
Qed.

Lemma in_column_count (w : world) (c : column) (i : jsstring) :
  In i (map id (listByColumn w c)) <-> count_in w c i > 0.
Proof.
  unfold listByColumn, count_in. rewrite map_map. simpl.
  apply count_occ_In.
Qed.

(** Ids that are apart name tasks of one column only. *)
Lemma NoDup_one_column (w : world) (i : jsstring) (c c' : column) :
  NoDup (task_ids w) ->
  In i (map id (listByColumn w c)) -> In i (map id (listByColumn w c')) ->
  c = c'.
Proof.
  intros Hn H H'. apply in_column_count in H, H'.
  apply (NoDup_count_occ JS.eq_dec) with (x := i) in Hn.
  rewrite count_task_ids in Hn.
  destruct c, c'; try reflexivity; lia.
Qed.

Lemma drop_count (w : world) (target : column) (i x : jsstring) :
  count_occ JS.eq_dec (task_ids (drop w target i)) x =
  count_occ JS.eq_dec (task_ids w) x.
Proof.
  destruct (getElementById w i) as [[f|]|] eqn:Hf.
  - destruct (drop_effect w target i f Hf) as (Hd & _ & _).
    apply getElementById_some in Hf as (_ & Hch & _).
    rewrite !count_task_ids. unfold count_in. rewrite !Hd.
    destruct (in_column f), target; simpl in Hch |- *; rewrite Hch;
      rewrite ?map_app; simpl; rewrite ?map_app, ?count_occ_app; simpl;
      rewrite ?count_occ_app; simpl;
      destruct (JS.eq_dec (el_id (element f)) x); lia.
  - rewrite (drop_page _ _ _ Hf). reflexivity.
  - rewrite (drop_not_found _ _ _ Hf). reflexivity.
Qed.

Lemma deleteTask_count (w : world) (i x : jsstring) :
  count_occ JS.eq_dec (task_ids (deleteTask w i)) x <=
  count_occ JS.eq_dec (task_ids w) x.
Proof.
  destruct (getElementById w i) as [[f|]|] eqn:Hf.
  - rewrite (deleteTask_found _ _ _ Hf).
    apply getElementById_some in Hf as (_ & _ & _ & _ & pre & post & He & _ & He').
    rewrite !task_ids_elements, elements_save.
    rewrite He, He', !map_app, !count_occ_app. simpl.
    destruct (JS.eq_dec (el_id (element f)) x); lia.
  - rewrite (deleteTask_page _ _ Hf).
    rewrite (task_ids_ext w (emit w _)); [lia|]. intros c. apply children_emit.
  - rewrite (deleteTask_not_found _ _ Hf).
    rewrite (task_ids_ext w (emit w _)); [lia|]. intros c. apply children_emit.
Qed.

Lemma addTask_count (w : world) (value : jsstring) (now : N) (random x : jsstring) :
  count_occ JS.eq_dec (task_ids (addTask w value now random)) x <=
  count_occ JS.eq_dec (task_ids w) x +
  count_occ JS.eq_dec [generateId now random] x.
Proof.
  destruct (eqb (trim value) []) eqn:E.
  - apply eqb_eq in E. rewrite (addTask_blank _ _ _ _ E).
    rewrite (task_ids_ext w (emit w _)); [lia|]. intros c. apply children_emit.
  - apply eqb_neq in E. rewrite (addTask_appends _ _ _ _ E).
    rewrite !count_task_ids. unfold count_in. simpl.
    rewrite map_app, count_occ_app. simpl. lia.
Qed.

Lemma lands_in_partition (l : list task) (x : jsstring) :
  count_occ JS.eq_dec (map task_id (filter (lands_in todo) l)) x +
  count_occ JS.eq_dec (map task_id (filter (lands_in inprogress) l)) x +
  count_occ JS.eq_dec (map task_id (filter (lands_in done) l)) x =
  count_occ JS.eq_dec (map task_id l) x.
Proof.
  induction l as [|r l IH]; [reflexivity|].
  unfold lands_in in *. simpl.
  destruct (destination (task_status r)); simpl;
    destruct (JS.eq_dec (task_id r) x); lia.
Qed.

Lemma initKanban_count (slot : option stored) (x : jsstring) :
  count_occ JS.eq_dec (task_ids (initKanban slot)) x =
  count_occ JS.eq_dec (map task_id (accepted slot)) x.
Proof.
  rewrite count_task_ids. unfold count_in.
  rewrite !initKanban_children, !map_map. simpl.
  apply lands_in_partition.
Qed.

(** *** Claims about deleting and about ids *)

Lemma deleteTask_found_count (w : world) (i x : jsstring) (f : found) :
  getElementById w i = Some (TaskNode f) ->
  count_occ JS.eq_dec (task_ids (deleteTask w i)) x =
  count_occ JS.eq_dec (task_ids w) x - (if JS.eq_dec i x then 1 else 0).
Proof.
  intros Hf. rewrite (deleteTask_found _ _ _ Hf).
  apply getElementById_some in Hf as (_ & _ & Hid & _ & pre & post & He & _ & He').
  rewrite !task_ids_elements, elements_save.
  rewrite He, He', !map_app, !count_occ_app. simpl. rewrite Hid.
  destruct (JS.eq_dec i x); lia.
Qed.




(** C9, as stated, fails. The load builds one element for each accepted
    record and never compares ids, so a slot with the same id twice gives
    a board with that id twice, here even in two columns. *)
Lemma load_keeps_duplicate_ids :
  let slot := Some (Parses (JArray
    [task_object {| task_id := lit "a"; task_text := lit "x"; task_status := lit "todo" |};
     task_object {| task_id := lit "a"; task_text := lit "y"; task_status := lit "done" |}])) in
  let w := initKanban slot in
  board w = [{| id := lit "a"; text := lit "x"; col := todo |};
             {| id := lit "a"; text := lit "y"; col := done |}] /\
  ~ NoDup (task_ids w).
Proof.
  split; [reflexivity|].
  intros H. inversion H as [|x l Hin Hl]. subst. apply Hin. now left.
Qed.

(** C9, amended. Along every run in which the accepted records of the
    slot have distinct ids and each id [generateId] hands out is not on
    the board at that time, no id is on the board twice, and an id is
    listed in one column only. The script itself checks neither
    condition. *)
Theorem distinct_run_unique_ids (w : world) :
  distinct_run w ->
  NoDup (task_ids w) /\
  (forall i c c',
     In i (map id (listByColumn w c)) -> In i (map id (listByColumn w c')) ->
     c = c').
Proof.
  intros Hrun.
  assert (Hn : NoDup (task_ids w)).
  { induction Hrun as [slot Hs|w value now random _ IH Hfresh|w c i _ IH
                       |w i _ IH|w c n _ IH].
    - apply (NoDup_count_occ JS.eq_dec). intros x. rewrite initKanban_count.
      now apply (NoDup_count_occ JS.eq_dec).
    - apply (NoDup_count_occ JS.eq_dec). intros x.
      pose proof (addTask_count w value now random x) as Hc.
      apply (NoDup_count_occ JS.eq_dec) with (x := x) in IH.
      cbn [count_occ] in Hc.
      destruct (JS.eq_dec (generateId now random) x) as [<-|_]; [|lia].
      apply (count_occ_not_In JS.eq_dec) in Hfresh. lia.
    - apply (NoDup_of_counts w); [|exact IH]. intros x. now rewrite drop_count.
    - apply (NoDup_of_counts w); [|exact IH]. intros x. apply deleteTask_count.
    - unfold deleteBtn_onclick.
      destruct (nth_error (children w c) n) as [el|]; [|exact IH].
      rewrite (task_ids_ext (deleteTask w (el_id el)))
        by (intros c'; apply children_emit).
      apply (NoDup_of_counts w); [|exact IH]. intros x. apply deleteTask_count. }
  split; [exact Hn|]. intros i c c'. now apply NoDup_one_column.
Qed.

(** C9, amended, on a run: two records with distinct ids are loaded, a
    task is added under a new id and moved. *)
Lemma distinct_run_unique_ids_witness :
  let slot := Some (Parses (JArray
    [task_object {| task_id := lit "a"; task_text := lit "x"; task_status := lit "todo" |};
     task_object {| task_id := lit "b"; task_text := lit "y"; task_status := lit "done" |}])) in
  let w := drop (addTask (initKanban slot) (lit "z") 1000 (lit "k3x9"))
                inprogress (lit "task-1000-k3x9") in
  distinct_run w /\ NoDup (task_ids w).
Proof.
  intros slot w.
  assert (Hrun : distinct_run w).
  { apply distinct_drop. apply distinct_addTask.
    - apply distinct_init.
      apply NoDup_cons; [intros [H|[]]; discriminate H|].
      apply NoDup_cons; [intros []| apply NoDup_nil].
    - intros [H|[H|[]]]; discriminate H. }
  split; [exact Hrun|].
  exact (proj1 (distinct_run_unique_ids w Hrun)).
Defined.

(** ** Further properties of the listeners *)

Lemma generateId_not_empty (now : N) (random : jsstring) :
  generateId now random <> [].
Proof. discriminate. Qed.

(** X1. [addTask] rejects exactly the inputs that consist of white space
    only (the empty input among them): for these, and for no other input,
    all it does is show the empty-input hint. *)
Theorem addTask_rejects_exactly_blank (w : world) (value : jsstring) (now : N)
        (random : jsstring) :
  addTask w value now random = emit w EmptyInputHint <->
  forallb isWhiteSpace value = true.
Proof.
  rewrite <- trim_blank. split.
  - intros H. destruct (eqb (trim value) []) eqn:E; [now apply eqb_eq|].
    apply eqb_neq in E. rewrite (addTask_appends _ _ _ _ E) in H.
    apply (f_equal trace) in H. rewrite trace_save in H.
    autorewrite with frame in H. rewrite <- app_assoc in H.
    apply app_inv_head in H. discriminate H.
  - apply addTask_blank.
Qed.

(** X2. The text of a task [addTask] creates is the input with the white
    space cut off both ends and nothing else changed: the input is this
    text between two runs of white space, and the text begins and ends
    with a character that is not white space. *)
Theorem addTask_text_is_trimmed (w : world) (value : jsstring) (now : N)
        (random : jsstring) :
  forallb isWhiteSpace value = false ->
  exists l x r,
    value = l ++ x ++ r /\
    forallb isWhiteSpace l = true /\ forallb isWhiteSpace r = true /\
    (exists c rest, x = c :: rest /\ isWhiteSpace c = false) /\
    (exists init c, x = init ++ [c] /\ isWhiteSpace c = false) /\
    listByColumn (addTask w value now random) todo =
      listByColumn w todo ++
      [{| id := generateId now random; text := x; col := todo |}].
Proof.
  intros Hv.
  assert (Hne : trim value <> []).
  { intros H. apply trim_blank in H. congruence. }
  destruct (trim_split value) as (l & r & Hs & Hl & Hr).
  exists l, (trim value), r. repeat split; trivial.
  - destruct (trim value) as [|c rest] eqn:E; [contradiction|].
    exists c, rest. split; [reflexivity|]. now apply (trim_head value rest).
  - destruct (exists_last Hne) as (init & c & E).
    exists init, c. split; [exact E|]. now apply (trim_last value init).
  - rewrite (addTask_appends _ _ _ _ Hne). unfold listByColumn.
    autorewrite with frame. simpl column_eqb. cbv iota. now rewrite map_app.
Qed.

(** X2 at the input " a b ": the text is "a b", inner space kept. *)
Lemma addTask_text_is_trimmed_witness :
  forallb isWhiteSpace (lit " a b ") = false /\
  exists l x r,
    lit " a b " = l ++ x ++ r /\
    forallb isWhiteSpace l = true /\ forallb isWhiteSpace r = true /\
    listByColumn (addTask (page None) (lit " a b ") 1000 (lit "k3x9")) todo =
      [{| id := generateId 1000 (lit "k3x9"); text := x; col := todo |}].
Proof.
  assert (H : forallb isWhiteSpace (lit " a b ") = false) by reflexivity.
  split; [exact H|].
  destruct (addTask_text_is_trimmed (page None) (lit " a b ") 1000 (lit "k3x9") H)
    as (l & x & r & H1 & H2 & H3 & _ & _ & H6).
  exists l, x, r. repeat split; assumption.
Defined.

Lemma in_children_task_ids (w : world) (c : column) (el : taskElement) :
  In el (children w c) -> In (el_id el) (task_ids w).
Proof.
  intros H. apply (in_listByColumn_task_ids w c).
  unfold listByColumn. rewrite map_map. simpl.
  now apply (in_map el_id).
Qed.

Lemma split_unique_last (l : list taskElement) (x : taskElement) :
  forall b e a,
    l ++ [x] = b ++ e :: a -> ~ In (el_id e) (map el_id l) ->
    b = l /\ e = x /\ a = [].
Proof.
  induction l as [|y l IH]; intros b e a H Hn.
  - destruct b as [|y' b]; simpl in H.
    + now injection H as <- <-.
    + injection H as _ H. now destruct b.
  - destruct b as [|y' b]; simpl in H.
    + injection H as <- _. exfalso. apply Hn. now left.
    + injection H as <- H.
      destruct (IH b e a H) as (-> & -> & ->); [|now repeat split].
      intros Hin. apply Hn. now right.
Qed.

Lemma one_column_of_count (w : world) (i : jsstring) (c c' : column) :
  count_occ JS.eq_dec (task_ids w) i = 1 ->
  In i (map id (listByColumn w c)) -> In i (map id (listByColumn w c')) ->
  c = c'.
Proof.
  intros Hn H H'. apply in_column_count in H, H'.
  rewrite count_task_ids in Hn.
  destruct c, c'; try reflexivity; lia.
Qed.

Lemma in_sync_save (w : world) : in_sync (saveTasksToLocalStorage w).
Proof. reflexivity. Qed.

Lemma in_sync_emit (w : world) (e : event) : in_sync w -> in_sync (emit w e).
Proof. intros H. exact H. Qed.

(** X3. Adding a task under an id that is not on the board and deleting
    that id again gives back the document as it was: every container has
    its old elements, and the slot holds the snapshot of that board. *)
Theorem add_then_delete_restores (w : world) (value : jsstring) (now : N)
        (random : jsstring) :
  forallb isWhiteSpace value = false ->
  ~ In (generateId now random) (task_ids w) ->
  let w2 := deleteTask (addTask w value now random) (generateId now random) in
  (forall c, children w2 c = children w c) /\
  board w2 = board w /\
  in_sync w2.
Proof.
  intros Hv Hfresh w2.
  assert (Hne : trim value <> []).
  { intros H. apply trim_blank in H. congruence. }
  set (i := generateId now random) in *.
  set (w1 := addTask w value now random) in *.
  assert (Hch1 : forall c, children w1 c =
            if column_eqb todo c
            then children w c ++
                 [{| el_id := i; textContent := trim value;
                     task_text_done := false; lastColumn := Some todo |}]
            else children w c).
  { intros c. unfold w1. rewrite (addTask_appends _ _ _ _ Hne).
    now autorewrite with frame. }
  assert (Hin : In i (task_ids w1)).
  { apply (in_children_task_ids w1 todo
             {| el_id := i; textContent := trim value;
                task_text_done := false; lastColumn := Some todo |}).
    rewrite Hch1. simpl. apply in_app_iff. right. now left. }
  destruct (getElementById_found w1 i (generateId_not_empty now random)
              (generateId_not_page now random) Hin)
    as [f Hf].
  pose proof (getElementById_some w1 i f Hf) as (_ & Hsplit & Hid & _).
  assert (Hcol : in_column f = todo).
  { destruct (column_eqb todo (in_column f)) eqn:E;
      [symmetry; now apply column_eqb_eq|].
    exfalso. apply Hfresh. rewrite <- Hid.
    apply (in_children_task_ids w (in_column f)).
    rewrite Hch1, E in Hsplit. rewrite Hsplit. apply in_app_iff. right. now left. }
  rewrite Hcol, Hch1 in Hsplit. simpl column_eqb in Hsplit. cbv iota in Hsplit.
  apply split_unique_last in Hsplit as (Hb & _ & Ha).
  2:{ rewrite Hid. intros Hin'. apply Hfresh. rewrite task_ids_elements.
      unfold elements. rewrite map_app. apply in_app_iff. now left. }
  assert (Hch2 : forall c, children w2 c = children w c).
  { intros c. unfold w2. rewrite (deleteTask_found _ _ _ Hf).
    autorewrite with frame. rewrite Hcol, Hb, Ha, app_nil_r, Hch1.
    now destruct c. }
  split; [exact Hch2|]. split.
  - apply board_ext. intros c. now apply listByColumn_ext.
  - unfold w2. rewrite (deleteTask_found _ _ _ Hf). apply in_sync_save.
Qed.

(** X3 on a board with one task. *)
Lemma add_then_delete_restores_witness :
  let w := addTask (page None) (lit "first") 1000 (lit "k3x9") in
  forallb isWhiteSpace (lit "second") = false /\
  ~ In (generateId 2000 (lit "zzz")) (task_ids w) /\
  board (deleteTask (addTask w (lit "second") 2000 (lit "zzz"))
                    (generateId 2000 (lit "zzz"))) = board w.
Proof.
  intros w.
  assert (Hv : forallb isWhiteSpace (lit "second") = false) by reflexivity.
  assert (Hf : ~ In (generateId 2000 (lit "zzz")) (task_ids w)).
  { intros [H|[]]. discriminate H. }
  split; [exact Hv|]. split; [exact Hf|].
  exact (proj1 (proj2 (add_then_delete_restores w (lit "second") 2000 (lit "zzz") Hv Hf))).
Defined.

(** X4. A drop of a task whose id is not one of the page's own on
    another column than the one it is in takes the element out of its
    container, leaving the others there in their order, and makes it the
    last child of the target's container; the third column is not
    touched. The task is the first in document order with that id. When
    the id named that task only, it is afterwards listed in the target
    column and in no other. *)
Theorem drop_moves_task (w : world) (target : column) (i : jsstring) (f : found) :
  is_page_id i = false ->
  getElementById w i = Some (TaskNode f) ->
  in_column f <> target ->
  let w' := drop w target i in
  children w (in_column f) = before f ++ element f :: after f /\
  el_id (element f) = i /\
  ~ In i (map el_id (before f)) /\
  (forall c, In c (columns_before (in_column f)) ->
             ~ In i (map el_id (children w c))) /\
  children w' target = children w target ++ [dropped (element f) target] /\
  children w' (in_column f) = before f ++ after f /\
  (forall c, c <> target -> c <> in_column f -> children w' c = children w c) /\
  (count_occ JS.eq_dec (task_ids w) i = 1 ->
   forall c, In i (map id (listByColumn w' c)) <-> c = target).
Proof.
  intros _ Hf Hdiff w'.
  destruct (drop_effect w target i f Hf) as (Hd & _ & _). fold w' in Hd.
  apply column_eqb_neq_iff in Hdiff.
  pose proof (getElementById_some w i f Hf) as (_ & Hch & Hid & Hb & _).
  pose proof (getElementById_task w i f Hf) as (_ & _ & Hft).
  split; [exact Hch|]. split; [exact Hid|]. split; [exact Hb|].
  split; [now apply find_task_first_column|].
  split; [|split; [|split]].
  - rewrite Hd, Hdiff, column_eqb_refl, column_eqb_sym, Hdiff. reflexivity.
  - rewrite Hd, Hdiff, column_eqb_refl. reflexivity.
  - intros c Hc1 Hc2. rewrite Hd, Hdiff.
    apply column_eqb_neq_iff in Hc1, Hc2. now rewrite Hc1, Hc2.
  - intros Hone c.
    assert (Hone' : count_occ JS.eq_dec (task_ids w') i = 1)
      by (unfold w'; now rewrite drop_count).
    assert (Hin : In i (map id (listByColumn w' target))).
    { rewrite <- Hid.
      apply (in_map id _ (task_of target (element f))).
      now apply drop_lists_in_target. }
    split.
    + intros Hc. now apply (one_column_of_count w' i c target).
    + now intros ->.
Qed.

(** X4: a task added to [todo] is dropped on [done]. *)
Lemma drop_moves_task_witness :
  let w := addTask (page None) (lit "Write spec") 1000 (lit "k3x9") in
  let i := lit "task-1000-k3x9" in
  is_page_id i = false /\
  (exists f, getElementById w i = Some (TaskNode f) /\ in_column f <> done) /\
  children (drop w done i) todo = [] /\
  List.length (children (drop w done i) done) = 1.
Proof.
  intros w i.
  pose (f := {| in_column := todo; before := [];
                element := {| el_id := i; textContent := lit "Write spec";
                              task_text_done := false;
                              lastColumn := Some todo |};
                after := [] |}).
  assert (Hp : is_page_id i = false) by reflexivity.
  assert (Hf : getElementById w i = Some (TaskNode f)) by reflexivity.
  assert (Hd : in_column f <> done) by discriminate.
  split; [exact Hp|]. split; [exists f; now split|].
  destruct (drop_moves_task w done i f Hp Hf Hd) as (_ & _ & _ & _ & H1 & H2 & _).
  split; [exact H2 | now rewrite H1].
Defined.

Lemma id_and_text_board (w : world) :
  map id_and_text (board w) =
  map (fun el => (el_id el, textContent el)) (elements w).
Proof.
  unfold board, columns, elements, listByColumn. simpl.
  rewrite app_nil_r, !map_app, !map_map. reflexivity.
Qed.

(** X5. A drop neither creates nor destroys a task and changes no id and
    no text: before and after, the board holds the same tasks, as often,
    whatever the target and whatever the dragged text. *)
Theorem drop_keeps_tasks (w : world) (target : column) (i : jsstring) :
  Permutation (map id_and_text (board (drop w target i)))
              (map id_and_text (board w)) /\
  List.length (board (drop w target i)) = List.length (board w).
Proof.
  assert (H : Permutation (map id_and_text (board (drop w target i)))
                          (map id_and_text (board w))).
  { destruct (getElementById w i) as [[f|]|] eqn:Hf.
    2:{ rewrite (drop_page _ _ _ Hf). apply Permutation_refl. }
    - destruct (drop_effect w target i f Hf) as (Hd & _ & _).
      apply getElementById_some in Hf as (_ & Hch & _).
      apply (Permutation_count_occ pair_eq_dec). intros x.
      rewrite !id_and_text_board. unfold elements.
      change (todoTasks ?w) with (children w todo).
      change (inprogressTasks ?w) with (children w inprogress).
      change (doneTasks ?w) with (children w done).
      rewrite !Hd.
      destruct (in_column f), target; simpl in Hch |- *; rewrite Hch;
        rewrite ?map_app; simpl; rewrite ?map_app, ?count_occ_app; simpl;
        rewrite ?count_occ_app; simpl;
        destruct (pair_eq_dec (el_id (element f), textContent (element f)) x);
        lia.
    - rewrite (drop_not_found _ _ _ Hf). apply Permutation_refl. }
  split; [exact H|].
  apply Permutation_length in H. now rewrite !length_map in H.
Qed.

(** X6. A drop whose text is empty (a drag that carries none), or is
    neither the id of a task on the board nor one of the page's own ids,
    only logs a warning: no element moves, no column is flashed, no
    confetti is fired and no snapshot is written. *)
Theorem drop_of_unknown_id_ignored (w : world) (target : column) (i : jsstring) :
  i = [] \/ (is_page_id i = false /\ ~ In i (task_ids w)) ->
  drop w target i = emit w (Console (DropNotFound i)) /\
  fired w (drop w target i) = [Console (DropNotFound i)] /\
  (forall c, children (drop w target i) c = children w c) /\
  kanbanTasks (drop w target i) = kanbanTasks w.
Proof.
  intros H. apply getElementById_none in H.
  rewrite (drop_not_found _ _ _ H).
  split; [reflexivity|]. split; [now apply fired_app|].
  split; [intros c; apply children_emit | reflexivity].
Qed.

(** X6 on a board with one task, for the empty text and an unknown id. *)
Lemma drop_of_unknown_id_ignored_witness :
  let w := addTask (page None) (lit "Write spec") 1000 (lit "k3x9") in
  (is_page_id (lit "task-7-zz") = false /\ ~ In (lit "task-7-zz") (task_ids w)) /\
  drop w done (lit "task-7-zz") = emit w (Console (DropNotFound (lit "task-7-zz"))) /\
  drop w done [] = emit w (Console (DropNotFound [])).
Proof.
  intros w.
  assert (H : is_page_id (lit "task-7-zz") = false /\ ~ In (lit "task-7-zz") (task_ids w)).
  { split; [reflexivity|]. intros [E|[]]. discriminate E. }
  split; [exact H|]. split.
  - exact (proj1 (drop_of_unknown_id_ignored w done (lit "task-7-zz") (or_intror H))).
  - exact (proj1 (drop_of_unknown_id_ignored w done [] (or_introl eq_refl))).
Defined.

Lemma in_split_other (b a : list taskElement) (e el : taskElement) :
  In el (b ++ e :: a) -> el_id el <> el_id e -> In el (b ++ a).
Proof.
  rewrite !in_app_iff. simpl. intros [H|[H|H]] Hn; try tauto.
  subst. contradiction.
Qed.

(** X7. A task whose id is the empty string, as the load accepts it from
    the slot, stays where it is as long as the listeners are handed ids
    of tasks only: no call of [addTask], no drop and no [deleteTask]
    with an id that is not one of the page's own, and no click on the
    delete button of a task with such an id, its own included, takes its
    element out of its container. *)
Theorem empty_id_task_is_stuck (w : world) (c : column) (el : taskElement) :
  In el (children w c) -> el_id el = [] ->
  (forall value now random, In el (children (addTask w value now random) c)) /\
  (forall target i, is_page_id i = false -> In el (children (drop w target i) c)) /\
  (forall i, is_page_id i = false -> In el (children (deleteTask w i) c)) /\
  (forall c' n x,
     nth_error (children w c') n = Some x -> is_page_id (el_id x) = false ->
     In el (children (deleteBtn_onclick w c' n) c)) /\
  (forall n, nth_error (children w c) n = Some el ->
     deleteBtn_onclick w c n =
     emit (emit w (Console (DeleteNotFound []))) (Flash c)).
Proof.
  intros Hin Hid.
  assert (Hdel : forall i, In el (children (deleteTask w i) c)).
  { intros i. destruct (getElementById w i) as [[f|]|] eqn:Hf.
    - rewrite (deleteTask_found _ _ _ Hf). autorewrite with frame.
      apply getElementById_some in Hf as (Hi & Hch & Hfid & _).
      destruct (column_eqb (in_column f) c) eqn:E; [|exact Hin].
      apply column_eqb_eq in E. subst c. rewrite Hch in Hin.
      apply (in_split_other _ _ _ _ Hin). congruence.
    - rewrite (deleteTask_page _ _ Hf). now autorewrite with frame.
    - rewrite (deleteTask_not_found _ _ Hf). now autorewrite with frame. }
  split; [|split; [|split; [|split]]].
  - intros value now random. destruct (eqb (trim value) []) eqn:E.
    + apply eqb_eq in E. rewrite (addTask_blank _ _ _ _ E).
      now autorewrite with frame.
    + apply eqb_neq in E. rewrite (addTask_appends _ _ _ _ E).
      autorewrite with frame.
      destruct (column_eqb todo c); [apply in_app_iff; now left | exact Hin].
  - intros target i _. destruct (getElementById w i) as [[f|]|] eqn:Hf.
    + destruct (drop_effect w target i f Hf) as (Hd & _ & _). rewrite Hd.
      apply getElementById_some in Hf as (Hi & Hch & Hfid & _).
      assert (Hne : el_id el <> el_id (element f)) by congruence.
      destruct (column_eqb (in_column f) target) eqn:E1.
      * destruct (column_eqb c target) eqn:E2; [|exact Hin].
        apply column_eqb_eq in E1, E2. subst c. rewrite <- E1, Hch in Hin.
        apply in_app_iff in Hin as [H|[H|H]].
        -- apply in_app_iff. now left.
        -- subst. contradiction.
        -- apply in_app_iff. right. now right.
      * destruct (column_eqb c (in_column f)) eqn:E2.
        -- apply column_eqb_eq in E2. subst c. rewrite Hch in Hin.
           now apply (in_split_other _ _ _ _ Hin).
        -- destruct (column_eqb c target) eqn:E3; [|exact Hin].
           apply column_eqb_eq in E3. subst c. apply in_app_iff. now left.
    + rewrite (drop_page _ _ _ Hf). now autorewrite with frame.
    + rewrite (drop_not_found _ _ _ Hf). now autorewrite with frame.
  - intros i _. apply Hdel.
  - intros c' n x Hx _. unfold deleteBtn_onclick. rewrite Hx.
    autorewrite with frame. apply Hdel.
  - intros n Hn. unfold deleteBtn_onclick. rewrite Hn, Hid. reflexivity.
Qed.

(** X7 at a task loaded with an empty id: the click on its delete button
    leaves it in its column. *)
Lemma empty_id_task_is_stuck_witness :
  let el := {| el_id := []; textContent := lit "x"; task_text_done := false;
               lastColumn := Some todo |} in
  let w := initKanban (Some (Parses (JArray
             [task_object {| task_id := []; task_text := lit "x";
                             task_status := lit "todo" |}]))) in
  In el (children w todo) /\ el_id el = [] /\
  In el (children (deleteBtn_onclick w todo 0) todo).
Proof.
  intros el w.
  assert (Hin : In el (children w todo)) by now left.
  assert (Hid : el_id el = []) by reflexivity.
  split; [exact Hin|]. split; [exact Hid|].
  destruct (empty_id_task_is_stuck w todo el Hin Hid) as (_ & _ & _ & H & _).
  exact (H todo 0 el eq_refl eq_refl).
Defined.

Lemma NoDup_split_unique (b : list taskElement) :
  forall l b' e e' a a',
    NoDup (map el_id l) ->
    l = b ++ e :: a -> l = b' ++ e' :: a' -> el_id e = el_id e' ->
    b = b' /\ e = e' /\ a = a'.
Proof.
  induction b as [|y b IH]; intros l b' e e' a a' Hn H H' Hid.
  - destruct b' as [|y' b']; simpl in *; subst l.
    + now injection H' as -> ->.
    + injection H' as -> ->. exfalso.
      simpl in Hn. inversion Hn as [|? ? Hnot _]. apply Hnot.
      rewrite Hid, map_app. apply in_app_iff. right. now left.
  - destruct b' as [|y' b']; simpl in *; subst l.
    + injection H' as -> <-. exfalso.
      simpl in Hn. inversion Hn as [|? ? Hnot _]. apply Hnot.
      rewrite <- Hid, map_app. apply in_app_iff. right. now left.
    + injection H' as -> H'.
      simpl in Hn. inversion Hn as [|? ? _ Hn'].
      destruct (IH (b ++ e :: a) b' e e' a a' Hn' eq_refl H' Hid)
        as (-> & -> & ->).
      now repeat split.
Qed.

Lemma NoDup_column (w : world) (c : column) :
  NoDup (task_ids w) -> NoDup (map el_id (children w c)).
Proof.
  rewrite task_ids_elements. unfold elements. rewrite !map_app. intros H.
  destruct c; simpl.
  - now apply NoDup_app_remove_r in H.
  - apply NoDup_app_remove_l in H. now apply NoDup_app_remove_r in H.
  - apply NoDup_app_remove_l in H. now apply NoDup_app_remove_l in H.
Qed.

(** X8. On a board whose ids are distinct, a click on the delete button
    of a task whose id is not empty and not one of the page's own
    removes that very element: its container keeps the elements before
    and after it in their order, the other containers are not touched,
    the snapshot of the new board is written and the column of the task
    is flashed. *)
Theorem deleteBtn_removes_clicked (w : world) (c : column) (n : nat)
        (el : taskElement) :
  NoDup (task_ids w) ->
  nth_error (children w c) n = Some el ->
  el_id el <> [] ->
  is_page_id (el_id el) = false ->
  let w' := deleteBtn_onclick w c n in
  children w' c = firstn n (children w c) ++ skipn (S n) (children w c) /\
  (forall c', c' <> c -> children w' c' = children w c') /\
  fired w w' = [Saved (collect_tasks w'); Flash c] /\
  in_sync w'.
Proof.
  intros Hn Hnth Hid Hp w'.
  assert (Hin : In el (children w c)) by now apply nth_error_In in Hnth.
  pose proof (in_children_task_ids w c el Hin) as Hids.
  destruct (getElementById_found w (el_id el) Hid Hp Hids) as [f Hf].
  pose proof (getElementById_some w _ f Hf) as (_ & Hch & Hfid & _).
  assert (Hcol : in_column f = c).
  { apply (NoDup_one_column w (el_id el)); [exact Hn| |].
    - unfold listByColumn. rewrite map_map, Hch. simpl. rewrite <- Hfid.
      apply in_map. apply in_app_iff. right. now left.
    - unfold listByColumn. rewrite map_map. simpl. now apply in_map. }
  rewrite Hcol in Hch.
  destruct (NoDup_split_unique (before f) (children w c)
              (firstn n (children w c)) (element f) el (after f)
              (skipn (S n) (children w c)) (NoDup_column w c Hn) Hch
              (eq_sym (firstn_skipn_middle n (children w c) Hnth)) Hfid)
    as (Hb & _ & Ha).
  assert (Heq : w' = emit (saveTasksToLocalStorage
                             (set_children w c (before f ++ after f)))
                          (Flash c)).
  { unfold w', deleteBtn_onclick. rewrite Hnth, (deleteTask_found _ _ _ Hf).
    now rewrite Hcol. }
  rewrite Heq. split; [|split; [|split]].
  - autorewrite with frame. now rewrite column_eqb_refl, Hb, Ha.
  - intros c' Hc'. autorewrite with frame.
    apply column_eqb_neq_iff in Hc'. now rewrite column_eqb_sym, Hc'.
  - apply fired_app. rewrite trace_emit, trace_save.
    autorewrite with frame. now rewrite <- app_assoc.
  - reflexivity.
Qed.

(** X8 on a board with two tasks in [todo]: the button of the second. *)
Lemma deleteBtn_removes_clicked_witness :
  let w1 := addTask (page None) (lit "first") 1000 (lit "aaa") in
  let w := addTask w1 (lit "second") 2000 (lit "bbb") in
  NoDup (task_ids w) /\
  (exists el, nth_error (children w todo) 1 = Some el /\ el_id el <> [] /\
              is_page_id (el_id el) = false) /\
  children (deleteBtn_onclick w todo 1) todo = children w1 todo.
Proof.
  intros w1 w.
  assert (Hn : NoDup (task_ids w)).
  { apply NoDup_cons; [intros [H|[]]; discriminate H|].
    apply NoDup_cons; [intros []|apply NoDup_nil]. }
  pose (el := {| el_id := generateId 2000 (lit "bbb"); textContent := lit "second";
                 task_text_done := false; lastColumn := Some todo |}).
  assert (Hnth : nth_error (children w todo) 1 = Some el) by reflexivity.
  assert (Hid : el_id el <> []) by discriminate.
  assert (Hp : is_page_id (el_id el) = false) by reflexivity.
  split; [exact Hn|]. split; [exists el; now repeat split|].
  exact (proj1 (deleteBtn_removes_clicked w todo 1 el Hn Hnth Hid Hp)).
Defined.

Lemma reload_board (w : world) :
  board (initKanban (kanbanTasks (saveTasksToLocalStorage w))) = board w.
Proof.
  apply board_ext. intros c. unfold listByColumn.
  rewrite reload_children, map_map. reflexivity.
Qed.

Lemma in_sync_deleteTask (w : world) (i : jsstring) :
  in_sync w -> in_sync (deleteTask w i).
Proof.
  intros H. unfold deleteTask.
  destruct (getElementById w i) as [[f|]|];
    [apply in_sync_save | exact H | exact H].
Qed.

(** X9. Once the slot holds the snapshot of the board, it does so after
    every listener, whether it changes the board or fails: [addTask], a
    drop, [deleteTask] and a delete button all leave the slot equal to
    the snapshot of the board they leave. In such a state a reload of the
    page shows the same board. *)
Theorem in_sync_is_kept (w : world) :
  in_sync w ->
  (forall value now random, in_sync (addTask w value now random)) /\
  (forall target i, in_sync (drop w target i)) /\
  (forall i, in_sync (deleteTask w i)) /\
  (forall c n, in_sync (deleteBtn_onclick w c n)) /\
  board (initKanban (kanbanTasks w)) = board w.
Proof.
  intros H. split; [|split; [|split; [|split]]].
  - intros value now random. destruct (eqb (trim value) []) eqn:E.
    + apply eqb_eq in E. now rewrite (addTask_blank _ _ _ _ E).
    + apply eqb_neq in E. rewrite (addTask_appends _ _ _ _ E).
      apply in_sync_save.
  - intros target i. unfold drop.
    destruct (getElementById w i) as [[f|]|];
      [apply in_sync_save | exact H | exact H].
  - intros i. now apply in_sync_deleteTask.
  - intros c n. unfold deleteBtn_onclick.
    destruct (nth_error (children w c) n); [|exact H].
    apply in_sync_emit. now apply in_sync_deleteTask.
  - unfold in_sync in H. rewrite H, <- kanbanTasks_save. apply reload_board.
Qed.

(** X9 on the state after a first task was added. *)
Lemma in_sync_is_kept_witness :
  let w := addTask (page None) (lit "Write spec") 1000 (lit "k3x9") in
  in_sync w /\ in_sync (drop w done (lit "task-1000-k3x9")) /\
  board (initKanban (kanbanTasks w)) = board w.
Proof.
  intros w.
  assert (H : in_sync w) by reflexivity.
  split; [exact H|].
  destruct (in_sync_is_kept w H) as (_ & Hd & _ & _ & Hb).
  split; [apply Hd | exact Hb].
Defined.

(** X10. A move survives a reload whatever the slot held before: after a
    drop that found its task, under an id that is not one of the page's
    own, the slot holds the snapshot of the new board, and [initKanban]
    on a fresh page with that slot lists every column as the drop left
    it. *)
Theorem reload_after_drop (w : world) (target : column) (i : jsstring) :
  i <> [] -> is_page_id i = false -> In i (task_ids w) ->
  let w' := drop w target i in
  in_sync w' /\
  forall c, listByColumn (initKanban (kanbanTasks w')) c = listByColumn w' c.
Proof.
  intros Hi Hp Hin w'.
  destruct (getElementById_found w i Hi Hp Hin) as [f Hf].
  assert (Hs : in_sync w').
  { unfold w', drop. rewrite Hf. apply in_sync_save. }
  split; [exact Hs|]. intros c. unfold in_sync in Hs.
  rewrite Hs, <- kanbanTasks_save. unfold listByColumn.
  rewrite reload_children, map_map. reflexivity.
Qed.

(** X10: the slot held an array with a number beside the task; the task
    is moved to [done] and the page reloaded. *)
Lemma reload_after_drop_witness :
  let a := {| task_id := lit "a"; task_text := lit "x"; task_status := lit "todo" |} in
  let w := initKanban (Some (Parses (JArray [task_object a; JNumber (lit "5")]))) in
  lit "a" <> [] /\ is_page_id (lit "a") = false /\ In (lit "a") (task_ids w) /\
  listByColumn (initKanban (kanbanTasks (drop w done (lit "a")))) done =
    [{| id := lit "a"; text := lit "x"; col := done |}].
Proof.
  intros a w.
  assert (Hi : lit "a" <> []) by discriminate.
  assert (Hp : is_page_id (lit "a") = false) by reflexivity.
  assert (Hin : In (lit "a") (task_ids w)) by now left.
  split; [exact Hi|]. split; [exact Hp|]. split; [exact Hin|].
  exact (proj2 (reload_after_drop w done (lit "a") Hi Hp Hin) done).
Defined.

Lemma dropped_twice (el : taskElement) (c c' : column) :
  dropped (dropped el c) c' = dropped el c'.
Proof. reflexivity. Qed.

(** X28. Moving a task to another column and back does not put it back
    in its place: on every state the page reaches while its listeners
    are handed ids of tasks only, for an id that is not one of the
    page's own and names one task, the two drops leave the task as the
    last one of its column, the other tasks of that column in their
    order before it, and the other two columns as they were. *)
Theorem drop_there_and_back (w : world) (target : column) (i : jsstring)
        (f : found) :
  task_run w ->
  is_page_id i = false ->
  getElementById w i = Some (TaskNode f) ->
  in_column f <> target ->
  count_occ JS.eq_dec (task_ids w) i = 1 ->
  let w2 := drop (drop w target i) (in_column f) i in
  children w2 (in_column f) = before f ++ after f ++ [element f] /\
  (forall c, c <> in_column f -> children w2 c = children w c).
Proof.
  intros Hr Hp Hf Hdiff Hone w2.
  apply task_run_consistent in Hr.
  pose proof (getElementById_some w i f Hf) as (Hi & Hch & Hid & _).
  pose proof (in_children_found w i f Hf) as Hel.
  set (w1 := drop w target i) in *.
  destruct (drop_effect w target i f Hf) as (Hd1 & _ & _). fold w1 in Hd1.
  pose proof (proj1 (column_eqb_neq_iff _ _) Hdiff) as Hne.
  assert (Ht1 : children w1 target = children w target ++ [dropped (element f) target]).
  { rewrite Hd1, Hne, column_eqb_refl, column_eqb_sym, Hne. reflexivity. }
  assert (Hone1 : count_occ JS.eq_dec (task_ids w1) i = 1)
    by (unfold w1; now rewrite drop_count).
  assert (Hin1 : In i (task_ids w1)).
  { apply (count_occ_In JS.eq_dec). lia. }
  destruct (getElementById_found w1 i Hi Hp Hin1) as [f1 Hf1].
  pose proof (getElementById_some w1 i f1 Hf1) as (_ & Hch1 & Hid1 & _).
  assert (Hcol1 : in_column f1 = target).
  { apply (one_column_of_count w1 i); [exact Hone1| |].
    - unfold listByColumn. rewrite map_map, Hch1. simpl. rewrite <- Hid1.
      apply in_map. apply in_app_iff. right. now left.
    - unfold listByColumn. rewrite map_map, Ht1. simpl. rewrite <- Hid.
      apply (in_map el_id _ (dropped (element f) target)).
      apply in_app_iff. right. now left. }
  assert (Hnot : ~ In i (map el_id (children w target))).
  { intros Hin. apply Hdiff.
    apply (one_column_of_count w i); [exact Hone| |].
    - unfold listByColumn. rewrite map_map. simpl. rewrite <- Hid.
      now apply in_map.
    - unfold listByColumn. now rewrite map_map. }
  rewrite Hcol1, Ht1 in Hch1.
  apply split_unique_last in Hch1 as (Hb1 & He1 & Ha1);
    [|now rewrite Hid1].
  destruct (drop_effect w1 (in_column f) i f1 Hf1) as (Hd2 & _ & _).
  fold w2 in Hd2.
  assert (Hne2 : column_eqb (in_column f1) (in_column f) = false).
  { rewrite Hcol1, column_eqb_sym. exact Hne. }
  split.
  - rewrite Hd2, Hne2, column_eqb_refl, column_eqb_sym, Hne2, He1, dropped_twice.
    rewrite Hd1, Hne, column_eqb_refl.
    rewrite (dropped_same_column w _ _ Hr Hel). now rewrite <- app_assoc.
  - intros c Hc. apply column_eqb_neq_iff in Hc.
    rewrite Hd2, Hne2, Hc.
    destruct (column_eqb c (in_column f1)) eqn:E.
    + apply column_eqb_eq in E. subst c. rewrite Hb1, Ha1, app_nil_r.
      now rewrite Hcol1.
    + rewrite Hd1, Hne. rewrite Hcol1 in E. now rewrite Hc, E.
Qed.

(** X28 on a board with two tasks in [todo]: the first goes to [done]
    and back, and is the second afterwards. *)
Lemma drop_there_and_back_witness :
  let w1 := addTask (page None) (lit "first") 1000 (lit "aaa") in
  let w := addTask w1 (lit "second") 2000 (lit "bbb") in
  let i := generateId 1000 (lit "aaa") in
  task_run w /\ is_page_id i = false /\
  (exists f, getElementById w i = Some (TaskNode f) /\ in_column f <> done) /\
  count_occ JS.eq_dec (task_ids w) i = 1 /\
  map textContent (children (drop (drop w done i) todo i) todo) =
    [lit "second"; lit "first"].
Proof.
  intros w1 w i.
  assert (Hr : task_run w).
  { apply run_addTask. apply run_addTask. exact (run_init None). }
  assert (Hp : is_page_id i = false) by reflexivity.
  pose (f := {| in_column := todo; before := [];
                element := {| el_id := i; textContent := lit "first";
                              task_text_done := false;
                              lastColumn := Some todo |};
                after := [{| el_id := generateId 2000 (lit "bbb");
                             textContent := lit "second";
                             task_text_done := false;
                             lastColumn := Some todo |}] |}).
  assert (Hf : getElementById w i = Some (TaskNode f)) by reflexivity.
  assert (Hd : in_column f <> done) by discriminate.
  assert (Hone : count_occ JS.eq_dec (task_ids w) i = 1) by reflexivity.
  split; [exact Hr|]. split; [exact Hp|].
  split; [exists f; now split|]. split; [exact Hone|].
  destruct (drop_there_and_back w done i f Hr Hp Hf Hd Hone) as [H _].
  change (in_column f) with todo in H. now rewrite H.
Defined.

(** ** Further properties of the load *)

Lemma upto_null_app (pre post : list json) :
  ~ In JNull pre -> upto_null (pre ++ JNull :: post) = pre.
Proof.
  induction pre as [|t pre IH]; intros H; [reflexivity|].
  cbn [app upto_null]. destruct (is_null t) eqn:E.
  - apply is_null_true in E. subst. exfalso. apply H. now left.
  - f_equal. apply IH. intros Hin. apply H. now right.
Qed.

(** X11. A [null] entry in the stored array ends the load: the records
    before it have become tasks as usual and stay on the board, the
    entries after it are never looked at, the slot is removed, and the
    console gets the warnings of the records before it and then the
    parse-failure error. *)
Theorem load_stops_at_null (pre post : list json) :
  ~ In JNull pre ->
  let w := initKanban (Some (Parses (JArray (pre ++ JNull :: post)))) in
  (forall c, listByColumn w c =
             map (fun r => {| id := task_id r; text := task_text r; col := c |})
                 (filter (lands_in c) (records pre))) /\
  kanbanTasks w = None /\
  trace w = flat_map warning_for pre ++ [Console FailedToParse].
Proof.
  intros H w. split.
  - intros c. unfold listByColumn, w.
    rewrite initKanban_children, listByColumn_loaded. unfold accepted.
    now rewrite (upto_null_app pre post H).
  - unfold w, initKanban, loadTasksFromLocalStorage.
    cbn [kanbanTasks page truthy JSON_parse].
    rewrite (load_tasks_thrown (pre ++ JNull :: post))
      by (apply in_app_iff; right; now left).
    destruct (load_tasks_effect (pre ++ JNull :: post)
                (page (Some (Parses (JArray (pre ++ JNull :: post))))))
      as (_ & _ & Htr).
    split; [reflexivity|].
    unfold removeItem. cbn [set_storage trace emit].
    rewrite Htr, (upto_null_app pre post H). reflexivity.
Qed.

(** X11 at a stored array with a record, [null] and a second record. *)
Lemma load_stops_at_null_witness :
  let a := task_object {| task_id := lit "a"; task_text := lit "x";
                          task_status := lit "todo" |} in
  let b := task_object {| task_id := lit "b"; task_text := lit "y";
                          task_status := lit "done" |} in
  let w := initKanban (Some (Parses (JArray ([a] ++ JNull :: [b])))) in
  ~ In JNull [a] /\
  kanbanTasks w = None /\ trace w = [Console FailedToParse].
Proof.
  intros a b w.
  assert (H : ~ In JNull [a]) by (intros [E|[]]; discriminate E).
  split; [exact H|].
  exact (proj2 (load_stops_at_null [a] [b] H)).
Defined.

Lemma warning_for_console (t : json) (e : event) :
  In e (warning_for t) -> exists m, e = Console m.
Proof.
  unfold warning_for. destruct (record_of t) as [r|].
  - destruct (taskContainers (task_status r)); [intros []|].
    intros [<-|[]]. eauto.
  - intros [<-|[]]. eauto.
Qed.

(** X12. The load is a read path: whatever the slot holds, it writes no
    snapshot, fires no confetti and flashes no column, since all its
    events are console messages; and it leaves the slot as it found it
    or removes it, never writing another content. *)
Theorem load_only_logs (slot : option stored) :
  (forall e, In e (trace (initKanban slot)) -> exists m, e = Console m) /\
  (kanbanTasks (initKanban slot) = slot \/ kanbanTasks (initKanban slot) = None).
Proof.
  unfold initKanban, loadTasksFromLocalStorage.
  destruct slot as [[| |v]|]; cbn [kanbanTasks page truthy JSON_parse].
  - split; [intros e []|now left].
  - split; [|now right]. intros e [<-|[]]. eauto.
  - destruct v;
      try (split; [intros e [<-|[]]; eauto | now right]).
    destruct (load_tasks_effect items (page (Some (Parses (JArray items)))))
      as (_ & Hst & Htr).
    assert (Hev : forall e,
              In e (flat_map warning_for (upto_null items)) ->
              exists m, e = Console m).
    { intros e He. apply in_flat_map in He as (t & _ & He).
      now apply (warning_for_console t). }
    destruct (load_tasks (page (Some (Parses (JArray items)))) items) as [w'|w'];
      cbn [world_of] in Hst, Htr.
    + split; [|now left]. intros e He. rewrite Htr in He. now apply Hev.
    + split; [|now right]. intros e He.
      unfold removeItem in He. cbn [set_storage trace emit] in He.
      rewrite Htr in He. simpl in He.
      apply in_app_iff in He as [He|[<-|[]]]; [now apply Hev | eauto].
  - split; [intros e []|now left].
Qed.

Lemma warning_for_saved (w : world) :
  flat_map warning_for (map task_object (collect_tasks w)) = [].
Proof.
  assert (H : forall l,
            (forall t, In t l -> exists c, task_status t = column_id c) ->
            flat_map warning_for (map task_object l) = []).
  { induction l as [|t l IH]; intros Hl; [reflexivity|].
    cbn [map flat_map]. rewrite IH by (intros x Hx; apply Hl; now right).
    destruct (Hl t (or_introl eq_refl)) as [c Hc].
    unfold warning_for. rewrite record_of_task_object, Hc.
    now rewrite taskContainers_column_id. }
  apply H. intros t Ht. unfold collect_tasks in Ht.
  apply in_flat_map in Ht as (c & _ & Ht).
  apply in_map_iff in Ht as (el & <- & _). now exists c.
Qed.

Lemma task_objects_no_null (ts : list task) : ~ In JNull (map task_object ts).
Proof. intros H. apply in_map_iff in H as (t & Ht & _). discriminate Ht. Qed.

(** X13. What the script saves it loads back without a word: on every
    state the page reaches while its listeners are handed ids of tasks
    only, a save followed by [initKanban] on a fresh page puts the very
    same elements into every container, styling and
    [dataset.lastColumn] included, logs nothing and leaves the slot as
    saved. *)
Theorem reload_restores_document (w : world) :
  task_run w ->
  let saved := kanbanTasks (saveTasksToLocalStorage w) in
  (forall c, children (initKanban saved) c = children w c) /\
  trace (initKanban saved) = [] /\
  kanbanTasks (initKanban saved) = saved.
Proof.
  intros Hr saved. apply task_run_consistent in Hr.
  split; [intros c; now apply reload_restores_elements|].
  unfold saved. rewrite kanbanTasks_save.
  rewrite (initKanban_array _ (task_objects_no_null (collect_tasks w))).
  destruct (load_tasks_effect (map task_object (collect_tasks w))
              (page (Some (Parses (JArray (map task_object (collect_tasks w)))))))
    as (_ & Hst & Htr).
  split.
  - rewrite Htr, (upto_null_id _ (task_objects_no_null (collect_tasks w))).
    now rewrite warning_for_saved.
  - now rewrite Hst.
Qed.

(** X13: a task is added and moved to [done], then the page is reloaded. *)
Lemma reload_restores_document_witness :
  let w := drop (addTask (page None) (lit "Write spec") 1000 (lit "k3x9"))
                done (lit "task-1000-k3x9") in
  task_run w /\
  children (initKanban (kanbanTasks (saveTasksToLocalStorage w))) done =
    children w done.
Proof.
  intros w.
  assert (Hr : task_run w).
  { apply run_drop; [|reflexivity]. apply run_addTask. exact (run_init None). }
  split; [exact Hr|].
  exact (proj1 (reload_restores_document w Hr) done).
Defined.

(** X14. The first snapshot written after a load holds the accepted
    records of the slot, column by column, each with its status replaced
    by the id of the column it landed in: a status that names no column
    is stored as todo from then on. *)
Theorem snapshot_after_load_is_normalised (slot : option stored) :
  collect_tasks (initKanban slot) =
  flat_map (fun c => map normalised (filter (lands_in c) (accepted slot)))
           columns.
Proof.
  unfold collect_tasks. apply flat_map_ext. intros c.
  rewrite initKanban_children, map_map.
  apply map_ext_in. intros r Hr. apply filter_In in Hr as [_ Hr].
  unfold lands_in in Hr. apply column_eqb_eq in Hr.
  unfold normalised. simpl. now rewrite Hr.
Qed.

(** X15. On every state the page reaches while its listeners are handed
    ids of tasks only, what the script keeps on a task element agrees
    with where the element is: [dataset.lastColumn] names the column
    whose container holds it, and its text carries the done style
    exactly in the [done] column. *)
Theorem elements_agree_with_columns (w : world) (c : column) (el : taskElement) :
  task_run w -> In el (children w c) ->
  lastColumn el = Some c /\ task_text_done el = column_eqb c done.
Proof. intros Hr Hin. now apply (task_run_consistent w Hr). Qed.

(** X15 at a task that was loaded into [todo] under an unknown status and
    then moved to [done]. *)
Lemma elements_agree_with_columns_witness :
  let slot := Some (Parses (JArray
    [task_object {| task_id := lit "b"; task_text := lit "y";
                    task_status := lit "archived" |}])) in
  let w := drop (initKanban slot) done (lit "b") in
  let el := {| el_id := lit "b"; textContent := lit "y";
               task_text_done := true; lastColumn := Some done |} in
  task_run w /\ In el (children w done) /\
  lastColumn el = Some done.
Proof.
  intros slot w el.
  assert (Hr : task_run w)
    by (apply run_drop; [exact (run_init slot) | reflexivity]).
  assert (Hin : In el (children w done)) by now left.
  split; [exact Hr|]. split; [exact Hin|].
  exact (proj1 (elements_agree_with_columns w done el Hr Hin)).
Defined.

(** X16. Only a drop fires the confetti: [addTask], [deleteTask] and a
    click on a delete button never do, whatever the state and the
    arguments. *)
Theorem only_drops_fire_confetti (w : world) :
  (forall value now random, ~ In Confetti (fired w (addTask w value now random))) /\
  (forall i, ~ In Confetti (fired w (deleteTask w i))) /\
  (forall c n, ~ In Confetti (fired w (deleteBtn_onclick w c n))).
Proof.
  assert (Hdel : forall i,
            exists l, trace (deleteTask w i) = trace w ++ l /\ ~ In Confetti l).
  { intros i. unfold deleteTask. destruct (getElementById w i) as [[f|]|].
    - eexists. split; [rewrite trace_save; autorewrite with frame; reflexivity|].
      intros [H|[]]. discriminate H.
    - eexists. split; [apply trace_emit|]. intros [H|[]]. discriminate H.
    - eexists. split; [apply trace_emit|]. intros [H|[]]. discriminate H. }
  split; [|split].
  - intros value now random. destruct (eqb (trim value) []) eqn:E.
    + apply eqb_eq in E. rewrite (addTask_blank _ _ _ _ E).
      rewrite (fired_app _ _ [EmptyInputHint]) by reflexivity.
      intros [H|[]]. discriminate H.
    + apply eqb_neq in E. rewrite (addTask_appends _ _ _ _ E).
      erewrite fired_app
        by (rewrite trace_save; autorewrite with frame;
            rewrite <- app_assoc; reflexivity).
      intros [H|[H|[]]]; discriminate H.
  - intros i. destruct (Hdel i) as (l & Hl & Hn). now rewrite (fired_app _ _ _ Hl).
  - intros c n. unfold deleteBtn_onclick.
    destruct (nth_error (children w c) n) as [el|].
    + destruct (Hdel (el_id el)) as (l & Hl & Hn).
      erewrite fired_app by (rewrite trace_emit, Hl, <- app_assoc; reflexivity).
      intros H. apply in_app_iff in H as [H|[H|[]]]; [now apply Hn | discriminate H].
    + unfold fired. rewrite skipn_all. intros [].
Qed.

End KanbanFacts.

(** ** Facts about the calculator *)

Module CalculatorFacts.

Import Calculator.

Open Scope float_scope.

Lemma invalid_not_finite (x : float) : invalid x = negb (PrimFloat.is_finite x).
Proof.
  unfold invalid, PrimFloat.is_finite.
  destruct (PrimFloat.is_nan x), (PrimFloat.is_infinity x); reflexivity.
Qed.

Lemma same_number_refl (a : spec_float) : same_number a a.
Proof. now left. Qed.

Ltac zeros := right; eexists; eexists; split; reflexivity.

Lemma SFsub_same (a a' b b' : spec_float) :
  same_number a a' -> same_number b b' ->
  same_number (SF64sub a b) (SF64sub a' b').
Proof.
  intros [<-|(s & s' & -> & ->)] [<-|(t & t' & -> & ->)].
  - now left.
  - destruct a as [[]| | |]; destruct t, t'; simpl; (now left) || zeros.
  - destruct b as [[]| | |]; destruct s, s'; simpl; (now left) || zeros.
  - destruct s, s', t, t'; simpl; zeros.
Qed.

Lemma SFadd_same (a a' b b' : spec_float) :
  same_number a a' -> same_number b b' ->
  same_number (SF64add a b) (SF64add a' b').
Proof.
  intros [<-|(s & s' & -> & ->)] [<-|(t & t' & -> & ->)].
  - now left.
  - destruct a as [[]| | |]; destruct t, t'; simpl; (now left) || zeros.
  - destruct b as [[]| | |]; destruct s, s'; simpl; (now left) || zeros.
  - destruct s, s', t, t'; simpl; zeros.
Qed.

Lemma SFmul_same (a a' b : spec_float) :
  same_number a a' -> same_number (SF64mul a b) (SF64mul a' b).
Proof.
  intros [<-|(s & s' & -> & ->)]; [now left|].
  destruct b; simpl; (now left) || zeros.
Qed.

(** Adding or subtracting a number other than zero gives the same value
    on the same number. *)
Lemma SFadd_finite (a a' : spec_float) (s : bool) (m : positive) (e : Z) :
  same_number a a' ->
  SF64add a (S754_finite s m e) = SF64add a' (S754_finite s m e).
Proof. intros [<-|(t & t' & -> & ->)]; reflexivity. Qed.

Lemma SFsub_finite (a a' : spec_float) (s : bool) (m : positive) (e : Z) :
  same_number a a' ->
  SF64sub a (S754_finite s m e) = SF64sub a' (S754_finite s m e).
Proof. intros [<-|(t & t' & -> & ->)]; reflexivity. Qed.

Lemma is_zero_spec (x : float) :
  PrimFloat.is_zero x = true -> exists s, Prim2SF x = S754_zero s.
Proof.
  unfold PrimFloat.is_zero. rewrite eqb_spec.
  destruct (Prim2SF x) as [s|s| |s m e]; intros H.
  - now exists s.
  - destruct s; discriminate H.
  - discriminate H.
  - destruct s; discriminate H.
Qed.

(** What [|| 0] does to a field beyond replacing NaN: it turns -0 into
    0, which is the same number. *)
Lemma or_zero_same (x : float) :
  same_number (Prim2SF (or_zero x)) (Prim2SF (if PrimFloat.is_nan x then 0 else x)).
Proof.
  unfold or_zero. destruct (PrimFloat.is_nan x); [now left|]. simpl.
  destruct (PrimFloat.is_zero x) eqn:E; [|now left].
  apply is_zero_spec in E as [s ->]. right. now exists false, s.
Qed.

Lemma equation_same (divisor D D' SP SP' Cp Cp' B B' : float) :
  same_number (Prim2SF D) (Prim2SF D') ->
  same_number (Prim2SF SP) (Prim2SF SP') ->
  same_number (Prim2SF Cp) (Prim2SF Cp') ->
  same_number (Prim2SF B) (Prim2SF B') ->
  equation divisor D SP Cp B = equation divisor D' SP' Cp' B'.
Proof.
  intros HD HSP HCp HB. unfold equation.
  assert (H1 : SP - Cp + B + 74 = SP' - Cp' + B' + 74).
  { apply Prim2SF_inj. rewrite !add_spec, !sub_spec.
    apply SFadd_finite. apply SFadd_same; [|exact HB].
    now apply SFsub_same. }
  assert (H2 : D * (SP - Cp + B + 74) - 7400 = D' * (SP' - Cp' + B' + 74) - 7400).
  { rewrite <- H1. apply Prim2SF_inj. rewrite !sub_spec, !mul_spec.
    apply SFsub_finite. now apply SFmul_same. }
  now rewrite H2.
Qed.

(** C10. With each field taken as the number [parseFloat] reads from it,
    or as 0 when that is NaN (an empty or non-numeric field), the
    calculator shows ((D * (SP - Cp + B + 74) - 7400) / 1.20) / 100 in
    binary64 arithmetic when this number is finite, and the error text
    otherwise. The divisor is 1.20: at D = 100, SP = 200, Cp = 50,
    B = 10, and on empty fields, the page shows the value of the
    equation with 1.20, which is not the value the equation of the
    comment, with 1.18, would give. *)
Theorem calculateAndUpdateResults_spec (varD varSP varCp varB : float) :
  let field (parsed : float) := if PrimFloat.is_nan parsed then 0 else parsed in
  let value :=
    equation 1.20 (field varD) (field varSP) (field varCp) (field varB) in
  calculateAndUpdateResults varD varSP varCp varB =
    (if PrimFloat.is_finite value then Shown value else ErrorInvalidResult) /\
  calculateAndUpdateResults 100 200 50 10 = Shown (equation 1.20 100 200 50 10) /\
  PrimFloat.eqb (equation 1.20 100 200 50 10) (equation 1.18 100 200 50 10) = false /\
  calculateAndUpdateResults nan nan nan nan = Shown (equation 1.20 0 0 0 0) /\
  PrimFloat.eqb (equation 1.20 0 0 0 0) (equation 1.18 0 0 0 0) = false /\
  calculateAndUpdateResults infinity 0 0 0 = ErrorInvalidResult.
Proof.
  intros field value. split; [|repeat split].
  assert (Hv : equation 1.20 (or_zero varD) (or_zero varSP) (or_zero varCp)
                 (or_zero varB) = value).
  { apply equation_same; apply or_zero_same. }
  unfold calculateAndUpdateResults. cbv zeta.
  change (((or_zero varD * (or_zero varSP - or_zero varCp + or_zero varB + 74)
            - 7400) / 1.20) / 100)
    with (equation 1.20 (or_zero varD) (or_zero varSP) (or_zero varCp)
            (or_zero varB)).
  rewrite Hv, invalid_not_finite.
  now destruct (PrimFloat.is_finite value).
Qed.
(** X25. A field that is empty or not a number, and a field that holds
    0 or -0, all count as 0: the display is the one the calculator gives
    with 0 in that field, in each of the four places. *)
Theorem blank_field_counts_as_zero (x a b c : float) :
  (PrimFloat.is_nan x || PrimFloat.is_zero x)%bool = true ->
  calculateAndUpdateResults x a b c = calculateAndUpdateResults 0 a b c /\
  calculateAndUpdateResults a x b c = calculateAndUpdateResults a 0 b c /\
  calculateAndUpdateResults a b x c = calculateAndUpdateResults a b 0 c /\
  calculateAndUpdateResults a b c x = calculateAndUpdateResults a b c 0.
Proof.
  intros H.
  assert (Hx : or_zero x = or_zero 0).
  { unfold or_zero at 1. now rewrite H. }
  unfold calculateAndUpdateResults. cbv zeta. now rewrite Hx.
Qed.

(** X25 at an empty field, for which [parseFloat] gives NaN. *)
Lemma blank_field_counts_as_zero_witness :
  (PrimFloat.is_nan nan || PrimFloat.is_zero nan)%bool = true /\
  calculateAndUpdateResults nan 200 50 10 = calculateAndUpdateResults 0 200 50 10.
Proof.
  assert (H : (PrimFloat.is_nan nan || PrimFloat.is_zero nan)%bool = true)
    by reflexivity.
  split; [exact H|].
  exact (proj1 (blank_field_counts_as_zero nan 200 50 10 H)).
Defined.

Lemma finite_cases (t : float) :
  PrimFloat.is_finite t = true ->
  (exists s, Prim2SF t = S754_zero s) \/
  (exists s m e, Prim2SF t = S754_finite s m e).
Proof.
  unfold PrimFloat.is_finite, PrimFloat.is_nan, PrimFloat.is_infinity.
  rewrite !eqb_spec, abs_spec.
  destruct (Prim2SF t) as [s|s| |s m e]; intros H.
  - left. now exists s.
  - destruct s; discriminate H.
  - discriminate H.
  - right. now exists s, m, e.
Qed.

Lemma zero_times_finite (t : float) :
  PrimFloat.is_finite t = true -> (0 * t - 7400 = -7400)%float.
Proof.
  intros H. apply Prim2SF_inj. rewrite sub_spec, mul_spec.
  destruct (finite_cases t H) as [[s Hs]|(s & m & e & Hs)]; rewrite Hs;
    destruct s; reflexivity.
Qed.

(** X26. With the D field empty or zero the other fields do not count:
    as long as SP - Cp + B + 74 is a finite number, the calculator shows
    the value of -7400 / 1.20 / 100, about -61.67. *)
Theorem zero_D_shows_constant (varD varSP varCp varB : float) :
  (PrimFloat.is_nan varD || PrimFloat.is_zero varD)%bool = true ->
  PrimFloat.is_finite (or_zero varSP - or_zero varCp + or_zero varB + 74) = true ->
  calculateAndUpdateResults varD varSP varCp varB = Shown (-7400 / 1.20 / 100).
Proof.
  intros HD Hfin.
  unfold calculateAndUpdateResults. cbv zeta.
  assert (Hz : or_zero varD = 0) by (unfold or_zero; now rewrite HD).
  rewrite Hz, (zero_times_finite _ Hfin). reflexivity.
Qed.

(** X26 at an empty D field beside SP = 200, Cp = 50 and B = 10. *)
Lemma zero_D_shows_constant_witness :
  (PrimFloat.is_nan nan || PrimFloat.is_zero nan)%bool = true /\
  PrimFloat.is_finite (or_zero 200 - or_zero 50 + or_zero 10 + 74) = true /\
  calculateAndUpdateResults nan 200 50 10 = Shown (-7400 / 1.20 / 100).
Proof.
  assert (H : (PrimFloat.is_nan nan || PrimFloat.is_zero nan)%bool = true)
    by reflexivity.
  assert (Hf : PrimFloat.is_finite (or_zero 200 - or_zero 50 + or_zero 10 + 74) = true)
    by reflexivity.
  split; [exact H|]. split; [exact Hf|].
  exact (zero_D_shows_constant nan 200 50 10 H Hf).
Defined.

End CalculatorFacts.

(** ** Facts about the tab switcher *)

Module TabsFacts.

Import Tabs.

(** On arrays of one length the loop of [switchTab] overwrites every
    class, so its result depends on that length and the index only. *)
Lemma forEach_closed (activeIndex : Z) (buttons : list bool) :
  forall (contents : list bool) (index : nat),
    List.length buttons = List.length contents ->
    forEach index activeIndex buttons contents =
    (map (fun n => Z.eqb (Z.of_nat n) activeIndex)
         (seq index (List.length buttons)),
     map (fun n => negb (Z.eqb (Z.of_nat n) activeIndex))
         (seq index (List.length buttons)),
     []).
Proof.
  induction buttons as [|b bs IH]; intros [|c cs] index H; try discriminate H.
  - reflexivity.
  - injection H as H. cbn [forEach List.length seq map].
    rewrite (IH cs (S index) H).
    now destruct (Z.eqb (Z.of_nat index) activeIndex).
Qed.

Lemma switchTab_in_range (s : state) (k : nat) :
  List.length (tabButtons s) = List.length (tabContents s) ->
  k < List.length (tabButtons s) ->
  switchTab s (Z.of_nat k) =
  {| tabButtons := map (fun n => Nat.eqb n k) (seq 0 (List.length (tabButtons s)));
     tabContents := map (fun n => negb (Nat.eqb n k))
                        (seq 0 (List.length (tabButtons s)));
     console := console s |}.
Proof.
  intros Hlen Hk. unfold switchTab.
  assert (Hguard : Nat.eqb (List.length (tabButtons s)) 0
                   || Nat.eqb (List.length (tabContents s)) 0
                   || Z.ltb (Z.of_nat k) 0
                   || Z.leb (Z.of_nat (List.length (tabButtons s))) (Z.of_nat k)
                   = false).
  { rewrite <- Hlen.
    destruct (Nat.eqb_spec (List.length (tabButtons s)) 0); [lia|].
    destruct (Z.ltb_spec (Z.of_nat k) 0); [lia|].
    destruct (Z.leb_spec (Z.of_nat (List.length (tabButtons s))) (Z.of_nat k));
      [lia | reflexivity]. }
  rewrite Hguard, (forEach_closed _ _ _ 0 Hlen), app_nil_r.
  f_equal; apply map_ext; intros n.
  - destruct (Z.eqb_spec (Z.of_nat n) (Z.of_nat k)), (Nat.eqb_spec n k);
      try reflexivity; lia.
  - destruct (Z.eqb_spec (Z.of_nat n) (Z.of_nat k)), (Nat.eqb_spec n k);
      try reflexivity; lia.
Qed.

(** X17. On arrays of one length, as [initializeTabDOMElements] builds
    them, [switchTab] with an index in range shows that tab and no
    other: its button is the only active one and its content the only
    one not hidden, whatever the classes were before. Nothing is
    logged. *)
Theorem switchTab_shows (s : state) (k : nat) :
  List.length (tabButtons s) = List.length (tabContents s) ->
  k < List.length (tabButtons s) ->
  shows (switchTab s (Z.of_nat k)) k /\
  List.length (tabButtons (switchTab s (Z.of_nat k))) = List.length (tabButtons s) /\
  List.length (tabContents (switchTab s (Z.of_nat k))) = List.length (tabContents s) /\
  console (switchTab s (Z.of_nat k)) = console s.
Proof.
  intros Hlen Hk. rewrite (switchTab_in_range s k Hlen Hk).
  cbn [tabButtons tabContents console].
  rewrite !length_map, !length_seq. split; [|now rewrite Hlen].
  intros n Hn. cbn [tabButtons tabContents] in Hn |- *.
  rewrite length_map, length_seq in Hn.
  rewrite !nth_error_map, !nth_error_seq.
  destruct (Nat.ltb_spec n (List.length (tabButtons s))); [|lia].
  now split.
Qed.

(** X17 at the two tabs of the page, all classes wrong before. *)
Lemma switchTab_shows_witness :
  let s := {| tabButtons := [false; true]; tabContents := [false; false];
              console := [] |} in
  List.length (tabButtons s) = List.length (tabContents s) /\
  1 < List.length (tabButtons s) /\
  shows (switchTab s 1) 1.
Proof.
  intros s.
  assert (Hlen : List.length (tabButtons s) = List.length (tabContents s))
    by reflexivity.
  assert (Hk : 1 < List.length (tabButtons s)) by (simpl; lia).
  split; [exact Hlen|]. split; [exact Hk|].
  exact (proj1 (switchTab_shows s 1 Hlen Hk)).
Defined.

(** X18. The last click wins: on arrays of one length, two calls of
    [switchTab] with indices in range leave the classes that the second
    call alone would leave. In particular a second click on the same tab
    changes nothing. *)
Theorem switchTab_last_wins (s : state) (i j : nat) :
  List.length (tabButtons s) = List.length (tabContents s) ->
  i < List.length (tabButtons s) -> j < List.length (tabButtons s) ->
  switchTab (switchTab s (Z.of_nat i)) (Z.of_nat j) = switchTab s (Z.of_nat j) /\
  switchTab (switchTab s (Z.of_nat i)) (Z.of_nat i) = switchTab s (Z.of_nat i).
Proof.
  intros Hlen Hi Hj.
  assert (H : forall a b, a < List.length (tabButtons s) ->
                b < List.length (tabButtons s) ->
                switchTab (switchTab s (Z.of_nat a)) (Z.of_nat b)
                = switchTab s (Z.of_nat b)).
  { intros a b Ha Hb.
    destruct (switchTab_shows s a Hlen Ha) as (_ & Hlb & Hlc & Hcon).
    rewrite (switchTab_in_range (switchTab s (Z.of_nat a)) b)
      by (rewrite ?Hlb, ?Hlc; assumption).
    rewrite (switchTab_in_range s b Hlen Hb), Hlb, Hcon. reflexivity. }
  split; now apply H.
Qed.

(** X18 at the two tabs of the page. *)
Lemma switchTab_last_wins_witness :
  let s := {| tabButtons := [true; false]; tabContents := [false; true];
              console := [] |} in
  List.length (tabButtons s) = List.length (tabContents s) /\
  1 < List.length (tabButtons s) /\ 0 < List.length (tabButtons s) /\
  switchTab (switchTab s 1) 0 = switchTab s 0.
Proof.
  intros s.
  assert (Hlen : List.length (tabButtons s) = List.length (tabContents s))
    by reflexivity.
  assert (H1 : 1 < List.length (tabButtons s)) by (simpl; lia).
  assert (H0 : 0 < List.length (tabButtons s)) by (simpl; lia).
  split; [exact Hlen|]. split; [exact H1|]. split; [exact H0|].
  exact (proj1 (switchTab_last_wins s 1 0 Hlen H1 H0)).
Defined.

(** X19. An index out of range, or a call on empty arrays, changes no
    class: [switchTab] only logs that it cannot switch. *)
Theorem switchTab_out_of_range (s : state) (activeIndex : Z) :
  (activeIndex < 0 \/ Z.of_nat (List.length (tabButtons s)) <= activeIndex
   \/ tabButtons s = [] \/ tabContents s = [])%Z ->
  switchTab s activeIndex =
  {| tabButtons := tabButtons s; tabContents := tabContents s;
     console := console s ++ [CannotSwitch activeIndex] |}.
Proof.
  intros H. unfold switchTab.
  assert (Hguard : Nat.eqb (List.length (tabButtons s)) 0
                   || Nat.eqb (List.length (tabContents s)) 0
                   || Z.ltb activeIndex 0
                   || Z.leb (Z.of_nat (List.length (tabButtons s))) activeIndex
                   = true).
  { destruct H as [H|[H|[H|H]]].
    - apply Z.ltb_lt in H. rewrite H. now rewrite !orb_true_r.
    - apply Z.leb_le in H. rewrite H. now rewrite !orb_true_r.
    - now rewrite H.
    - rewrite H. simpl. now rewrite !orb_true_r. }
  now rewrite Hguard.
Qed.

(** X19 at the index 2 of a page with two tabs. *)
Lemma switchTab_out_of_range_witness :
  let s := {| tabButtons := [true; false]; tabContents := [false; true];
              console := [] |} in
  tabButtons (switchTab s 2) = [true; false] /\
  tabContents (switchTab s 2) = [false; true].
Proof.
  intros s.
  assert (H : (2 < 0 \/ Z.of_nat (List.length (tabButtons s)) <= 2
               \/ tabButtons s = [] \/ tabContents s = [])%Z).
  { right; left. simpl. lia. }
  rewrite (switchTab_out_of_range s 2 H). now split.
Defined.

(** X20. After [initTabs], and after any number of clicks on the tab
    buttons, the page is in one of three states: no element is in the
    arrays (one of the four was missing), or the Kanban tab alone is
    shown, or the Calculator tab alone is shown. *)
Theorem one_tab_is_shown (s : state) :
  reached s ->
  (tabButtons s = [] /\ tabContents s = []) \/
  (tabButtons s = [true; false] /\ tabContents s = [false; true]) \/
  (tabButtons s = [false; true] /\ tabContents s = [true; false]).
Proof.
  induction 1 as [b0 b1 c0 c1|s a _ IH Ha].
  - destruct b0, b1, c0, c1; try (now left); right; left; now split.
  - destruct Ha as [-> | ->];
      destruct IH as [[Hb Hc]|[[Hb Hc]|[Hb Hc]]];
      unfold switchTab; rewrite Hb, Hc; simpl; tauto.
Qed.

(** X20 after [initTabs] on a complete page and a click on Calculator. *)
Lemma one_tab_is_shown_witness :
  let s := switchTab (initTabs (Some false) (Some true) (Some true) (Some false)) 1 in
  reached s /\
  tabButtons s = [false; true] /\ tabContents s = [true; false].
Proof.
  intros s.
  assert (Hr : reached s).
  { apply reached_click; [apply reached_init | now right]. }
  split; [exact Hr|].
  destruct (one_tab_is_shown s Hr) as [[H _]|[[H _]|H]];
    [discriminate H | discriminate H | exact H].
Defined.

(** X27. [initTabs] opens the page on the Kanban tab: when the four
    elements are there, it makes the Kanban button the active one and
    the Kanban content the visible one, whatever classes the page gave
    them, and logs nothing. When one of the four is missing, no element
    is put in the arrays and none is written; the console gets the
    general error, one error for each missing element in the order
    tabKanban, tabCalculator, kanbanContent, calculatorContent, and the
    warning that no default tab was set. *)
Theorem initTabs_opens_kanban
    (tabKanbanBtn tabCalculatorBtn kanbanContentDiv calculatorContentDiv : option bool) :
  initTabs tabKanbanBtn tabCalculatorBtn kanbanContentDiv calculatorContentDiv =
  match tabKanbanBtn, tabCalculatorBtn, kanbanContentDiv, calculatorContentDiv with
  | Some _, Some _, Some _, Some _ =>
      {| tabButtons := [true; false]; tabContents := [false; true];
         console := [] |}
  | _, _, _, _ =>
      {| tabButtons := []; tabContents := [];
         console :=
           [ElementsNotFound] ++
           (match tabKanbanBtn with
            | Some _ => [] | None => [ElementNotFound tabKanban] end) ++
           (match tabCalculatorBtn with
            | Some _ => [] | None => [ElementNotFound tabCalculator] end) ++
           (match kanbanContentDiv with
            | Some _ => [] | None => [ElementNotFound kanbanContent] end) ++
           (match calculatorContentDiv with
            | Some _ => [] | None => [ElementNotFound calculatorContent] end) ++
           [DefaultTabNotSet] |}
  end /\
  initTabs (Some false) None (Some true) None =
    {| tabButtons := []; tabContents := [];
       console := [ElementsNotFound; ElementNotFound tabCalculator;
                   ElementNotFound calculatorContent; DefaultTabNotSet] |}.
Proof.
  split; [|reflexivity].
  destruct tabKanbanBtn as [[]|], tabCalculatorBtn as [[]|],
           kanbanContentDiv as [[]|], calculatorContentDiv as [[]|];
    reflexivity.
Qed.

End TabsFacts.

(** ** Facts about the board on a page that misses elements *)

Module KanbanPageFacts.

Import JS Kanban KanbanPage JSFacts KanbanFacts.

Lemma taskContainers_on_complete (key : jsstring) :
  taskContainers_on complete key = taskContainers key.
Proof.
  unfold taskContainers_on. destruct (taskContainers key) as [c|]; [|reflexivity].
  now destruct c.
Qed.

Lemma load_task_on_complete (w : world) (t : json) :
  load_task_on complete w t = (load_task w t, []).
Proof.
  unfold load_task_on, load_task. destruct (is_null t); [reflexivity|].
  destruct (as_string (prop t (lit "id"))); [|reflexivity].
  destruct (as_string (prop t (lit "text"))); [|reflexivity].
  destruct (as_string (prop t (lit "status"))) as [status|]; [|reflexivity].
  destruct (createTaskElement t); [|reflexivity].
  rewrite taskContainers_on_complete.
  now destruct (taskContainers status).
Qed.

Lemma load_tasks_on_complete (tasks : list json) :
  forall w, load_tasks_on complete w tasks = (load_tasks w tasks, []).
Proof.
  induction tasks as [|t rest IH]; intros w; [reflexivity|].
  cbn [load_tasks_on load_tasks]. rewrite load_task_on_complete.
  destruct (load_task w t) as [w'|w']; [|reflexivity].
  now rewrite IH.
Qed.

(** X21. On a page that has the input and the three containers, none of
    the guards of the script fires: [addTask], the drop listener and the
    load log no error about a missing element and do what they do
    without their guards. *)
Theorem complete_page_needs_no_guard :
  (forall w value now random,
     addTask_on complete w value now random = (addTask w value now random, [])) /\
  (forall w target i, drop_on complete w target i = (drop w target i, [])) /\
  (forall slot, initKanban_on complete slot = (initKanban slot, [])).
Proof.
  split; [|split].
  - intros w value now random. unfold addTask_on, addTask. cbv zeta.
    cbn [complete has_taskInput has_todoTasks negb].
    destruct (eqb (trim value) []); [reflexivity|].
    now rewrite createTaskElement_task_object.
  - intros w target i. unfold drop_on.
    destruct (getElementById w i) as [n|] eqn:Hf.
    + now destruct target.
    + now rewrite (drop_not_found _ _ _ Hf).
  - intros slot. unfold initKanban_on, initKanban,
      loadTasksFromLocalStorage_on, loadTasksFromLocalStorage.
    destruct slot as [[| |v]|]; try reflexivity.
    cbn [kanbanTasks page truthy JSON_parse].
    destruct v; try reflexivity.
    rewrite load_tasks_on_complete.
    now destruct (load_tasks (page (Some (Parses (JArray items)))) items).
Qed.

Lemma taskContainers_on_some (p : layout) (status : jsstring) (c : column) :
  taskContainers_on p status = Some c ->
  taskContainers status = Some c /\ has_container p c = true.
Proof.
  unfold taskContainers_on. destruct (taskContainers status) as [c0|]; [|discriminate].
  destruct (has_container p c0) eqn:E; [|discriminate].
  intros [= <-]. now split.
Qed.

Lemma placed_on_has_container (p : layout) (status : jsstring) (c : column) :
  placed_on p status = Some c -> has_container p c = true.
Proof.
  unfold placed_on. destruct (taskContainers_on p status) as [c0|] eqn:E.
  - intros [= <-]. now apply taskContainers_on_some in E.
  - destruct (has_todoTasks p) eqn:Ht; [|discriminate]. now intros [= <-].
Qed.

(** One round of the guarded loop on a value other than [null]. *)
Lemma load_task_on_effect (p : layout) (w : world) (t : json) :
  is_null t = false ->
  exists w',
    load_task_on p w t =
      (Normal w', match record_of t with
                  | Some r => error_for p r
                  | None => []
                  end) /\
    (forall c, children w' c =
               children w c ++
               match record_of t with
               | Some r => if lands_on p c r then [element_in c r] else []
               | None => []
               end) /\
    kanbanTasks w' = kanbanTasks w.
Proof.
  intros Hnull.
  unfold load_task_on, createTaskElement, record_of. rewrite Hnull.
  destruct (as_string (prop t (lit "id"))) as [i|];
    [destruct (as_string (prop t (lit "text"))) as [x|];
     [destruct (as_string (prop t (lit "status"))) as [s|]|]|];
    try (eexists; split; [reflexivity|]; split; [|reflexivity];
         intros c; now rewrite children_emit, app_nil_r).
  unfold lands_on, error_for, placed_on, element_in.
  cbn [task_status task_id task_text].
  destruct (taskContainers_on p s) as [c0|] eqn:Hc.
  - apply taskContainers_on_some in Hc as [Hc _].
    eexists; split; [reflexivity|]. split.
    + intros c. rewrite children_appendChild, (taskContainers_done _ _ Hc).
      destruct (column_eqb c0 c) eqn:E; [|now rewrite app_nil_r].
      apply column_eqb_eq in E. now subst.
    + apply kanbanTasks_appendChild.
  - destruct (has_todoTasks p).
    + eexists; split; [reflexivity|]. split; [|reflexivity].
      intros c. destruct c; simpl; now rewrite ?app_nil_r.
    + eexists; split; [reflexivity|]. split; [|reflexivity].
      intros c. now rewrite children_emit, app_nil_r.
Qed.

Lemma filter_lands_on_cons (p : layout) (c : column) (r : task) (l : list task) :
  map (element_in c) (filter (lands_on p c) (r :: l)) =
  (if lands_on p c r then [element_in c r] else []) ++
  map (element_in c) (filter (lands_on p c) l).
Proof. simpl. now destruct (lands_on p c r). Qed.

Lemma load_tasks_on_effect (p : layout) (tasks : list json) :
  forall w : world,
    (forall c, children (world_of (fst (load_tasks_on p w tasks))) c =
               children w c ++
               map (element_in c)
                   (filter (lands_on p c) (records (upto_null tasks)))) /\
    kanbanTasks (world_of (fst (load_tasks_on p w tasks))) = kanbanTasks w /\
    snd (load_tasks_on p w tasks) =
      flat_map (error_for p) (records (upto_null tasks)).
Proof.
  induction tasks as [|t rest IH]; intros w.
  - simpl. repeat split; intros; now rewrite app_nil_r.
  - cbn [load_tasks_on upto_null]. destruct (is_null t) eqn:Hnull.
    + unfold load_task_on. rewrite Hnull. simpl.
      repeat split; intros; now rewrite app_nil_r.
    + destruct (load_task_on_effect p w t Hnull) as (w1 & Hstep & Hch & Hst).
      rewrite Hstep.
      destruct (IH w1) as (IHch & IHst & IHerr).
      destruct (load_tasks_on p w1 rest) as [k errs'].
      cbn [fst snd] in *. split; [|split].
      * intros c. rewrite IHch, Hch, <- app_assoc. f_equal.
        cbn [records]. destruct (record_of t) as [r|]; [|reflexivity].
        now rewrite filter_lands_on_cons.
      * congruence.
      * rewrite IHerr. cbn [records].
        destruct (record_of t) as [r|]; reflexivity.
Qed.

Lemma initKanban_on_effect (p : layout) (slot : option stored) :
  (forall c, children (fst (initKanban_on p slot)) c =
             map (element_in c) (filter (lands_on p c) (accepted slot))) /\
  snd (initKanban_on p slot) = flat_map (error_for p) (accepted slot).
Proof.
  unfold initKanban_on, loadTasksFromLocalStorage_on, accepted.
  destruct slot as [[| |v]|]; try (split; [intros c; now destruct c | reflexivity]).
  destruct v; try (split; [intros c; now destruct c | reflexivity]).
  cbn [kanbanTasks page truthy JSON_parse].
  destruct (load_tasks_on_effect p items (page (Some (Parses (JArray items)))))
    as (Hch & _ & Herr).
  destruct (load_tasks_on p (page (Some (Parses (JArray items)))) items)
    as [[w'|w'] errs]; cbn [fst snd world_of] in *.
  - split; [|exact Herr]. intros c. rewrite Hch. now destruct c.
  - split; [|exact Herr]. intros c. unfold removeItem.
    rewrite children_set_storage, children_emit, Hch. now destruct c.
Qed.

(** X22. The load on a page that misses containers: each accepted record
    becomes a task of the column its status names when that container is
    there, of [todo] when it is not but the todo container is, and is
    dropped with a console error when neither is there. No task is put
    in a column whose container is missing. *)
Theorem load_on_incomplete_page (p : layout) (slot : option stored) :
  (forall c, listByColumn (fst (initKanban_on p slot)) c =
             map (fun r => {| id := task_id r; text := task_text r; col := c |})
                 (filter (lands_on p c) (accepted slot))) /\
  snd (initKanban_on p slot) = flat_map (error_for p) (accepted slot) /\
  (forall c, has_container p c = false ->
             listByColumn (fst (initKanban_on p slot)) c = []).
Proof.
  destruct (initKanban_on_effect p slot) as (Hch & Herr).
  assert (Hl : forall c, listByColumn (fst (initKanban_on p slot)) c =
             map (fun r => {| id := task_id r; text := task_text r; col := c |})
                 (filter (lands_on p c) (accepted slot))).
  { intros c. unfold listByColumn. rewrite Hch, map_map. reflexivity. }
  split; [exact Hl|]. split; [exact Herr|].
  intros c Hc. rewrite Hl.
  assert (Hnone : forall l, filter (lands_on p c) l = []).
  { induction l as [|r l IH]; [reflexivity|]. simpl. rewrite IH.
    unfold lands_on. destruct (placed_on p (task_status r)) as [c'|] eqn:E;
      [|reflexivity].
    destruct (column_eqb c' c) eqn:E'; [|reflexivity].
    apply column_eqb_eq in E'. subst c'.
    apply placed_on_has_container in E. congruence. }
  now rewrite Hnone.
Qed.

Lemma split_nil (b a : list taskElement) (e : taskElement) :
  [] = b ++ e :: a -> False.
Proof. now destruct b. Qed.

(** X23. A column whose container is missing stays empty: on every state
    of such a page, after the load and any run of listeners, no task is
    in that column. *)
Theorem missing_container_stays_empty (p : layout) (w : world) (c : column) :
  reachable_on p w -> has_container p c = false -> children w c = [].
Proof.
  intros Hr Hc.
  assert (Hdel : forall w i, children w c = [] -> children (deleteTask w i) c = []).
  { intros w0 i H0. destruct (getElementById w0 i) as [[f|]|] eqn:Hf.
    - rewrite (deleteTask_found _ _ _ Hf). autorewrite with frame.
      destruct (column_eqb (in_column f) c) eqn:E; [|exact H0].
      apply column_eqb_eq in E. subst c.
      apply getElementById_some in Hf as (_ & Hch & _).
      rewrite H0 in Hch. now apply split_nil in Hch.
    - rewrite (deleteTask_page _ _ Hf). now autorewrite with frame.
    - rewrite (deleteTask_not_found _ _ Hf). now autorewrite with frame. }
  induction Hr as [slot|w value now random _ IH|w target i _ IH|w i _ IH|w c' n _ IH].
  - destruct (load_on_incomplete_page p slot) as (_ & _ & H).
    specialize (H c Hc). unfold listByColumn in H.
    now apply map_eq_nil in H.
  - unfold addTask_on. destruct (has_taskInput p); [|exact IH]. cbv zeta.
    cbn [negb]. destruct (eqb (trim value) []);
      [cbn [fst]; now autorewrite with frame|].
    rewrite createTaskElement_task_object.
    destruct (has_todoTasks p) eqn:Ht; cbn [fst]; autorewrite with frame;
      [|exact IH].
    destruct c; [simpl in Hc; congruence | exact IH | exact IH].
  - unfold drop_on. destruct (getElementById w i) as [[f|]|] eqn:Hf;
      [| |cbn [fst]; now autorewrite with frame].
    2:{ destruct (has_container p target); [|exact IH]. cbn [fst].
        rewrite (drop_page _ _ _ Hf). now autorewrite with frame. }
    destruct (has_container p target) eqn:Ht; [|exact IH]. cbn [fst].
    destruct (drop_effect w target i f Hf) as (Hd & _ & _). rewrite Hd.
    apply getElementById_some in Hf as (_ & Hch & _).
    assert (Hct : column_eqb c target = false).
    { apply column_eqb_neq_iff. intros ->. congruence. }
    assert (Hcf : column_eqb c (in_column f) = false).
    { apply column_eqb_neq_iff. intros ->. rewrite IH in Hch.
      now apply split_nil in Hch. }
    rewrite Hct, Hcf. now destruct (column_eqb (in_column f) target).
  - now apply Hdel.
  - unfold deleteBtn_onclick.
    destruct (nth_error (children w c') n); [|exact IH].
    autorewrite with frame. now apply Hdel.
Qed.

(** X23 on a page without the in-progress container: the record for it
    is loaded into [todo], and a drop on the column changes nothing. *)
Lemma missing_container_stays_empty_witness :
  let p := {| has_taskInput := true; has_todoTasks := true;
              has_inprogressTasks := false; has_doneTasks := true |} in
  let slot := Some (Parses (JArray
    [task_object {| task_id := lit "a"; task_text := lit "x";
                    task_status := lit "inprogress" |}])) in
  let w := fst (drop_on p (fst (initKanban_on p slot)) inprogress (lit "a")) in
  reachable_on p w /\ has_container p inprogress = false /\
  children w inprogress = [] /\
  List.length (children w todo) = 1.
Proof.
  intros p slot w.
  assert (Hr : reachable_on p w) by (apply reach_on_drop; apply reach_on_init).
  assert (Hc : has_container p inprogress = false) by reflexivity.
  split; [exact Hr|]. split; [exact Hc|].
  split; [exact (missing_container_stays_empty p w inprogress Hr Hc) | reflexivity].
Defined.

(** X24. On a page without the todo container [addTask] never changes
    the board, whatever the input: a non-blank input is dropped, with a
    console error, although the input counts as taken and a snapshot of
    the unchanged board is written. *)
Theorem addTask_without_todo_container (p : layout) (w : world)
        (value : jsstring) (now : N) (random : jsstring) :
  has_todoTasks p = false ->
  (forall c, children (fst (addTask_on p w value now random)) c = children w c) /\
  (has_taskInput p = true -> forallb isWhiteSpace value = false ->
   addTask_on p w value now random =
     (saveTasksToLocalStorage w, [NoTodoContainer])).
Proof.
  intros Ht. unfold addTask_on. rewrite Ht. cbv zeta.
  destruct (has_taskInput p); cbn [negb].
  - destruct (eqb (trim value) []) eqn:E.
    + split; [intros c; cbn [fst]; now autorewrite with frame|].
      intros _ Hv. apply eqb_eq in E. apply trim_blank in E. congruence.
    + rewrite createTaskElement_task_object.
      split; [intros c; cbn [fst]; now autorewrite with frame | reflexivity].
  - split; [reflexivity | discriminate].
Qed.

(** X24 at the input "Write spec". *)
Lemma addTask_without_todo_container_witness :
  let p := {| has_taskInput := true; has_todoTasks := false;
              has_inprogressTasks := true; has_doneTasks := true |} in
  has_todoTasks p = false /\
  children (fst (addTask_on p (page None) (lit "Write spec") 1000 (lit "k3x9"))) todo
    = [].
Proof.
  intros p.
  assert (H : has_todoTasks p = false) by reflexivity.
  split; [exact H|].
  exact (proj1 (addTask_without_todo_container p (page None) (lit "Write spec")
                  1000 (lit "k3x9") H) todo).
Defined.

End KanbanPageFacts.
